(** * envcheck: environment check and single run attempt

    A shallow embedding of [envcheck.py] and the properties of its decision
    pipeline: input classification, target resolution, the bounded fact log,
    the dependency probe, the run attempt and the verdict emission.

    Python strings are modelled as [string] (code points below 256), the
    operating system and the library calls the program treats as black boxes
    are the fields of a [World] record, and the program's effects (the log
    object, subprocesses, standard output, [SystemExit], exceptions) are
    threaded through a small monad. *)

From Stdlib Require Import String Ascii List Bool Arith ZArith NArith Lia.
From Stdlib Require Import DecimalString OrdersEx RelationClasses.
Import ListNotations.
Open Scope string_scope.
Open Scope list_scope.
Open Scope nat_scope.

(** String concatenation, kept apart from the list append. *)
Infix "+++" := String.append (right associativity, at level 60).

(* ================================================================== *)
(** ** Python string primitives *)
(* ================================================================== *)

Module PyStr.

Definition code (c : ascii) : nat := nat_of_ascii c.

(** [str.isspace] on one character, for the code points below 256. *)
Definition isspace (c : ascii) : bool :=
  let n := code c in
  ((9 <=? n) && (n <=? 13)) || ((28 <=? n) && (n <=? 32))
  || (n =? 133) || (n =? 160).

(** C0 controls, DEL and the C1 controls. *)
Definition iscontrol (c : ascii) : bool :=
  let n := code c in
  (n <? 32) || ((127 <=? n) && (n <=? 159)).

Definition LF : ascii := ascii_of_nat 10.
Definition BEL : ascii := ascii_of_nat 7.
Definition DQUOTE : ascii := ascii_of_nat 34.
Definition SQUOTE : ascii := ascii_of_nat 39.

Definition is_empty (s : string) : bool :=
  match s with EmptyString => true | String _ _ => false end.

Fixpoint lstrip (s : string) : string :=
  match s with
  | EmptyString => EmptyString
  | String c r => if isspace c then lstrip r else s
  end.

Fixpoint rstrip (s : string) : string :=
  match s with
  | EmptyString => EmptyString
  | String c r =>
      let r' := rstrip r in
      if isspace c && is_empty r' then EmptyString else String c r'
  end.

(** [s.strip()] *)
Definition strip (s : string) : string := rstrip (lstrip s).

(** [s.replace(a, b)] for one-character [a] and [b]. *)
Fixpoint replace_char (a b : ascii) (s : string) : string :=
  match s with
  | EmptyString => EmptyString
  | String c r =>
      String (if Ascii.eqb c a then b else c) (replace_char a b r)
  end.

(** [s[:n]] *)
Fixpoint take (n : nat) (s : string) : string :=
  match n, s with
  | O, _ => EmptyString
  | _, EmptyString => EmptyString
  | S n', String c r => String c (take n' r)
  end.

(** [s[n:]] *)
Fixpoint drop (n : nat) (s : string) : string :=
  match n, s with
  | O, _ => s
  | _, EmptyString => EmptyString
  | S n', String _ r => drop n' r
  end.

(** [s[-1]], when [s] is not empty. *)
Fixpoint last_char (s : string) : option ascii :=
  match s with
  | EmptyString => None
  | String c EmptyString => Some c
  | String _ r => last_char r
  end.

(** [any(ch.isspace() for ch in s)] *)
Fixpoint any_space (s : string) : bool :=
  match s with
  | EmptyString => false
  | String c r => isspace c || any_space r
  end.

Fixpoint any_char (p : ascii -> bool) (s : string) : bool :=
  match s with
  | EmptyString => false
  | String c r => p c || any_char p r
  end.

(** [s.startswith(p)] *)
Definition startswith (p s : string) : bool := String.prefix p s.

(** [s.endswith(p)] *)
Definition endswith (p s : string) : bool :=
  (String.length p <=? String.length s)
  && String.eqb (drop (String.length s - String.length p) s) p.

(** [sub in s], for a non-empty [sub]. *)
Fixpoint contains (sub s : string) : bool :=
  String.prefix sub s
  || match s with
     | EmptyString => false
     | String _ r => contains sub r
     end.

(** [s.split(sep, 1)[0]] (also [s.split(sep)[0]]): the text before the
    first occurrence of the non-empty [sep], all of [s] without one. *)
Fixpoint before (sep s : string) : string :=
  match s with
  | EmptyString => EmptyString
  | String c r =>
      if String.prefix sep s then EmptyString else String c (before sep r)
  end.

(** [s.split()[0]]: the first whitespace-separated word, [None] where
    Python raises [IndexError] because [s.split()] is empty. *)
Fixpoint until_space (s : string) : string :=
  match s with
  | EmptyString => EmptyString
  | String c r => if isspace c then EmptyString else String c (until_space r)
  end.

Definition first_word (s : string) : option string :=
  match lstrip s with
  | EmptyString => None
  | w => Some (until_space w)
  end.

(** [str.lower] on the code points below 256. *)
Definition lower_char (c : ascii) : ascii :=
  let n := code c in
  if ((65 <=? n) && (n <=? 90))
     || ((192 <=? n) && (n <=? 222) && negb (n =? 215))
  then ascii_of_nat (n + 32) else c.

Fixpoint lower (s : string) : string :=
  match s with
  | EmptyString => EmptyString
  | String c r => String (lower_char c) (lower r)
  end.

(** The line boundaries of [str.splitlines] below 256. *)
Definition is_linebreak (c : ascii) : bool :=
  let n := code c in
  ((10 <=? n) && (n <=? 13)) || ((28 <=? n) && (n <=? 30)) || (n =? 133).

(** [s.splitlines()[0]] for a non-empty [s]. *)
Fixpoint first_line (s : string) : string :=
  match s with
  | EmptyString => EmptyString
  | String c r =>
      if is_linebreak c then EmptyString else String c (first_line r)
  end.

(** [s.split(sep)] for a one-character separator. *)
Fixpoint split_char (sep : ascii) (s : string) : list string :=
  match s with
  | EmptyString => [EmptyString]
  | String c r =>
      if Ascii.eqb c sep then EmptyString :: split_char sep r
      else match split_char sep r with
           | [] => [String c EmptyString]
           | w :: ws => String c w :: ws
           end
  end.

(** [sep.join(l)] *)
Definition join (sep : string) (l : list string) : string :=
  String.concat sep l.

(** [str(n)] for a non-negative and for a signed integer. *)
Definition of_nat (n : nat) : string := NilZero.string_of_uint (Nat.to_uint n).
Definition of_Z (z : Z) : string := NilZero.string_of_int (Z.to_int z).

End PyStr.

(* ================================================================== *)
(** ** The fact log (class [Log]) *)
(* ================================================================== *)

Definition LOG_MAX_LINES : nat := 10.

Module Log.

(** The object holds one field, [lines]. *)
Definition t := list string.

Definition init : t := [].

(** [line.strip().replace("\n", " ")[:240]] *)
Definition clean (line : string) : string :=
  PyStr.take 240
    (PyStr.replace_char PyStr.LF " "%char (PyStr.strip line)).

Definition add (lines : t) (line : string) : t :=
  if length lines <? LOG_MAX_LINES
  then lines ++ [clean line]
  else lines.

(** The text handed to [LOG_PATH.write_text]. *)
Definition file_text (lines : t) : string :=
  PyStr.join (String PyStr.LF "") lines
  +++ (match lines with [] => "" | _ => String PyStr.LF "" end).

End Log.

(* ================================================================== *)
(** ** Paths ([pathlib.Path], POSIX flavour) *)
(* ================================================================== *)

Module Path.

(** A path is its root flag and its normalised parts. *)
Record t : Type := mk { absolute : bool; parts : list string }.

Definition keep_part (p : string) : bool :=
  negb (PyStr.is_empty p) && negb (String.eqb p ".").

(** [Path(s)]: empty parts and [.] parts are dropped. *)
Definition of_str (s : string) : t :=
  {| absolute := PyStr.startswith "/" s;
     parts := filter keep_part (PyStr.split_char "/" s) |}.

(** [str(p)] *)
Definition str (p : t) : string :=
  match absolute p, parts p with
  | false, [] => "."
  | a, ps => (if a then "/" else EmptyString) +++ PyStr.join "/" ps
  end.

(** [p / name] *)
Definition div (p : t) (name : string) : t :=
  let q := of_str name in
  if absolute q then q
  else {| absolute := absolute p; parts := parts p ++ parts q |}.

(** The path a directory scan builds for the entry [name] of [p]. *)
Definition child (p : t) (name : string) : t :=
  {| absolute := absolute p; parts := parts p ++ [name] |}.

(** [p.name] *)
Definition name (p : t) : string := last (parts p) EmptyString.

(** [p.parent] *)
Definition parent (p : t) : t :=
  {| absolute := absolute p; parts := removelast (parts p) |}.

(** [s.rfind(".")] *)
Fixpoint rfind_dot (s : string) : option nat :=
  match s with
  | EmptyString => None
  | String c r =>
      match rfind_dot r with
      | Some i => Some (S i)
      | None => if Ascii.eqb c "."%char then Some 0 else None
      end
  end.

(** [p.suffix] *)
Definition suffix (p : t) : string :=
  let n := name p in
  match rfind_dot n with
  | Some i =>
      if (0 <? i) && (i <? String.length n - 1) then PyStr.drop i n
      else EmptyString
  | None => EmptyString
  end.

(** Paths are ordered part by part, each part as a string. *)
Fixpoint parts_ltb (a b : list string) : bool :=
  match a, b with
  | [], [] => false
  | [], _ :: _ => true
  | _ :: _, [] => false
  | x :: a', y :: b' =>
      match String.compare x y with
      | Lt => true
      | Gt => false
      | Eq => parts_ltb a' b'
      end
  end.

Definition root_part (p : t) : list string :=
  if absolute p then ["/"] else [].

(** [p < q] *)
Definition ltb (p q : t) : bool :=
  parts_ltb (root_part p ++ parts p) (root_part q ++ parts q).

Fixpoint insert (x : t) (l : list t) : list t :=
  match l with
  | [] => [x]
  | y :: l' => if ltb y x then y :: insert x l' else x :: l
  end.

(** [sorted(l)]: a stable sort that compares with [<] only. *)
Fixpoint sorted (l : list t) : list t :=
  match l with
  | [] => []
  | x :: l' => insert x (sorted l')
  end.

End Path.

(* ================================================================== *)
(** ** The data model *)
(* ================================================================== *)

Inductive Kind : Type := KFile | KDir | KCommand.

Inductive Runtime : Type := RPython | RNode | RBash | RGo | RUnknown.

Inductive ProjectType : Type := App | Library | UnknownType.

(** The dataclass [Target], with its defaults in [mkTarget]. *)
Record Target : Type := {
  kind : Kind;
  path : option Path.t;
  command : option (list string);
  entrypoint : option Path.t;
  runtime : option Runtime;
  project_type : ProjectType
}.

Definition project_type_name (p : ProjectType) : string :=
  match p with App => "app" | Library => "library" | UnknownType => "unknown" end.

(** [t.runtime or "unknown"] *)
Definition runtime_or_unknown (t : Target) : Runtime :=
  match runtime t with Some r => r | None => RUnknown end.

(* ================================================================== *)
(** ** The world: file system, processes and library calls *)
(* ================================================================== *)

(** The exceptions the program meets.  [PermissionError] is the subclass
    of [OSError] that pathlib's [glob] treats apart. *)
Inductive exn : Type :=
  OSError | PermissionError | IndexError | TimeoutExpired.

Inductive res (A : Type) : Type := Ok (a : A) | Err (e : exn).
Arguments Ok {A} a.
Arguments Err {A} e.

Inductive ftype : Type := RegularFile | Directory | Special.

(** [os.stat] behind [exists], [is_file] and [is_dir]: the entry's type,
    an absence ([ENOENT], [ENOTDIR], [EBADF], [ELOOP]: pathlib answers
    [False]) or any other error (pathlib lets the [OSError] through). *)
Inductive stat_result : Type :=
  StatOk (ty : ftype) | StatAbsent | StatError.

(** [subprocess.run([exe, "--version"], capture_output=True, timeout=2)] *)
Inductive run_result : Type :=
  RunCompleted (out err : string) | RunTimeout | RunError.

(** [proc.wait(timeout=RUN_TIMEOUT_SECONDS)], the timeout being 3.0
    seconds: the process exited in time, is still running when the timeout
    expires ([TimeoutExpired]), or the wait raised something else. *)
Inductive wait_result : Type :=
  Exited (returncode : Z) | StillRunning | WaitError.

(** [subprocess.Popen(cmd, cwd=...)]; [terminate_raises] is what a later
    [proc.terminate()] does. *)
Inductive spawn_result : Type :=
  SpawnNotFound | SpawnError
| Spawned (wr : wait_result) (terminate_raises : bool).

Record World : Type := {
  stat : string -> stat_result;
  scandir : string -> res (list string);
  access_x : string -> res bool;
  read_first_line : string -> res string;
  read_lines : string -> res (list string);
  shutil_which : string -> option string;
  shlex_split : string -> option (list string);
  subprocess_run : list string -> run_result;
  subprocess_popen : list string -> option string -> spawn_result;
  find_spec : string -> res bool;
  platform_system : res string;
  platform_machine : res string;
  log_writable : bool
}.

(* ================================================================== *)
(** ** Effects *)
(* ================================================================== *)

(** What the process does to the outside, in the order it does it. *)
Inductive event : Type :=
  SubprocessRun (cmd : list string)
| Popen (cmd : list string) (cwd : option string)
| Terminate (cmd : list string)
| WriteLog (text : string)
| Print (line : string).

Record state : Type := { log : Log.t; trace : list event }.

Definition state0 : state := {| log := Log.init; trace := [] |}.

(** A statement returns, leaves through [SystemExit], or raises. *)
Inductive outcome (A : Type) : Type :=
  Ret (a : A) (s : state)
| Exit (code : Z) (s : state)
| Raise (e : exn) (s : state).
Arguments Ret {A} a s.
Arguments Exit {A} code s.
Arguments Raise {A} e s.

Definition M (A : Type) : Type := state -> outcome A.

Definition ret {A} (a : A) : M A := fun s => Ret a s.

Definition bind {A B} (m : M A) (k : A -> M B) : M B :=
  fun s =>
    match m s with
    | Ret a s' => k a s'
    | Exit c s' => Exit c s'
    | Raise e s' => Raise e s'
    end.

Notation "x <- m ;; k" := (bind m (fun x => k))
  (at level 61, m at next level, right associativity).
Notation "m ;;; k" := (bind m (fun _ => k))
  (at level 61, right associativity).

Definition raise {A} (e : exn) : M A := fun s => Raise e s.

Definition sys_exit {A} (code : Z) : M A := fun s => Exit code s.

(** [try: m except Exception: h]; [SystemExit] is no [Exception]. *)
Definition try_except {A} (m : M A) (h : M A) : M A :=
  fun s =>
    match m s with
    | Raise _ s' => h s'
    | o => o
    end.

Definition lift {A} (r : res A) : M A :=
  match r with Ok a => ret a | Err e => raise e end.

Definition emit (ev : event) : M unit :=
  fun s => Ret tt {| log := log s; trace := trace s ++ [ev] |}.

(** [log.add(line)] *)
Definition log_add (line : string) : M unit :=
  fun s => Ret tt {| log := Log.add (log s) line; trace := trace s |}.

Definition the_state {A} (o : outcome A) : state :=
  match o with Ret _ s | Exit _ s | Raise _ s => s end.

(** The lines printed to standard output. *)
Fixpoint printed (tr : list event) : list string :=
  match tr with
  | [] => []
  | Print l :: r => l :: printed r
  | _ :: r => printed r
  end.

(** The command lines handed to the process-spawn facility. *)
Fixpoint subprocesses (tr : list event) : list (list string) :=
  match tr with
  | [] => []
  | SubprocessRun c :: r => c :: subprocesses r
  | Popen c _ :: r => c :: subprocesses r
  | _ :: r => subprocesses r
  end.

(** The run attempts: what [Popen] was given. *)
Fixpoint popens (tr : list event) : list (list string * option string) :=
  match tr with
  | [] => []
  | Popen c d :: r => (c, d) :: popens r
  | _ :: r => popens r
  end.

(* ================================================================== *)
(** ** The program *)
(* ================================================================== *)

Definition ENTRYPOINT_PATTERNS : list string :=
  [ "main.py"; "run.py"; "app.py";
    "index.js"; "main.js";
    "run.sh"; "main.sh";
    "main.go" ].

Definition FALLBACK_EXTENSIONS : list string := [".sh"; ".js"; ".go"].

Definition mkTarget (k : Kind) (p : option Path.t) (c : option (list string))
  (e : option Path.t) (r : option Runtime) (pt : ProjectType) : Target :=
  {| kind := k; path := p; command := c; entrypoint := e; runtime := r;
     project_type := pt |}.

(** [raw.strip()] wrapped in one pair of quote characters. *)
Definition unquote_if_wrapped (raw : string) : string * bool :=
  let s := PyStr.strip raw in
  match s with
  | String c0 _ =>
      if (2 <=? String.length s)
         && (Ascii.eqb c0 PyStr.SQUOTE || Ascii.eqb c0 PyStr.DQUOTE)
         && (match PyStr.last_char s with
             | Some c => Ascii.eqb c c0
             | None => false
             end)
      then (PyStr.take (String.length s - 2) (PyStr.drop 1 s), true)
      else (raw, false)
  | EmptyString => (raw, false)
  end.

(** [a or b] on values that are [None] or a string. *)
Definition str_or (a b : option string) : option string :=
  match a with
  | Some (String _ _) => a
  | _ => b
  end.

Section Program.

Variable w : World.

(** [p.exists()], [p.is_file()], [p.is_dir()] *)
Definition path_exists (p : Path.t) : res bool :=
  match stat w (Path.str p) with
  | StatOk _ => Ok true
  | StatAbsent => Ok false
  | StatError => Err OSError
  end.

Definition is_file (p : Path.t) : res bool :=
  match stat w (Path.str p) with
  | StatOk RegularFile => Ok true
  | StatOk _ => Ok false
  | StatAbsent => Ok false
  | StatError => Err OSError
  end.

Definition is_dir (p : Path.t) : res bool :=
  match stat w (Path.str p) with
  | StatOk Directory => Ok true
  | StatOk _ => Ok false
  | StatAbsent => Ok false
  | StatError => Err OSError
  end.

(** [p.exists() and p.is_file()] *)
Definition exists_and_is_file (p : Path.t) : res bool :=
  match path_exists p with
  | Ok true => is_file p
  | r => r
  end.

(** [p.exists() and p.is_dir()] *)
Definition exists_and_is_dir (p : Path.t) : res bool :=
  match path_exists p with
  | Ok true => is_dir p
  | r => r
  end.

(** [d.glob("*" + ext)]: the entries of [d] whose name ends in [ext],
    whatever their type.  pathlib reads a listing that fails with
    [PermissionError] as an empty one and lets any other error through. *)
Definition glob (d : Path.t) (ext : string) : res (list Path.t) :=
  match scandir w (Path.str d) with
  | Ok names => Ok (map (Path.child d) (filter (PyStr.endswith ext) names))
  | Err PermissionError => Ok []
  | Err e => Err e
  end.

(** [Log.write]: a failed write is swallowed. *)
Definition log_write : M unit :=
  fun s =>
    if log_writable w
    then emit (WriteLog (Log.file_text (log s))) s
    else Ret tt s.

Definition fail {A} : M A :=
  log_write ;;;
  emit (Print "FAIL") ;;;
  sys_exit 1%Z.

Definition success {A} : M A :=
  log_write ;;;
  emit (Print "SUCCESS") ;;;
  sys_exit 0%Z.

Definition is_command_input (raw0 : string) : bool :=
  let raw := PyStr.strip raw0 in
  let '(unq, wrapped) := unquote_if_wrapped raw in
  if wrapped then
    match path_exists (Path.of_str unq) with
    | Ok true => false
    | Ok false => true
    | Err _ => true
    end
  else if PyStr.any_space raw then
    match path_exists (Path.of_str raw) with
    | Ok false => true
    | Ok true => false
    | Err _ => true
    end
  else false.

(** [cmd[0]] raises [IndexError] on an empty list. *)
Definition guess_runtime_from_command (cmd : list string) : res Runtime :=
  match cmd with
  | [] => Err IndexError
  | c0 :: _ =>
      let head := PyStr.lower (Path.name (Path.of_str c0)) in
      if String.eqb head "python" || String.eqb head "python3"
         || String.eqb head "py" then Ok RPython
      else if String.eqb head "node" then Ok RNode
      else if String.eqb head "bash" || String.eqb head "sh" then Ok RBash
      else if String.eqb head "go" then Ok RGo
      else Ok RUnknown
  end.

(** The first loop of [find_entrypoint_in_dir]. *)
Fixpoint find_by_name (d : Path.t) (names : list string)
  : M (option Path.t) :=
  match names with
  | [] => ret None
  | name :: rest =>
      let candidate := Path.div d name in
      ok <- lift (exists_and_is_file candidate) ;;
      if ok then
        log_add ("entrypoint: " +++ Path.name candidate) ;;;
        ret (Some candidate)
      else find_by_name d rest
  end.

(** The second loop of [find_entrypoint_in_dir]. *)
Fixpoint find_by_extension (d : Path.t) (exts : list string)
  : M (option Path.t) :=
  match exts with
  | [] => ret None
  | ext :: rest =>
      found <- lift (glob d ext) ;;
      match Path.sorted found with
      | m0 :: _ =>
          log_add ("entrypoint: " +++ Path.name m0) ;;;
          ret (Some m0)
      | [] => find_by_extension d rest
      end
  end.

Definition find_entrypoint_in_dir (d : Path.t) : M (option Path.t) :=
  r <- find_by_name d ENTRYPOINT_PATTERNS ;;
  match r with
  | Some candidate => ret (Some candidate)
  | None =>
      r' <- find_by_extension d FALLBACK_EXTENSIONS ;;
      match r' with
      | Some m0 => ret (Some m0)
      | None => log_add "entrypoint: none" ;;; ret None
      end
  end.

Definition guess_runtime_from_file (f : Path.t) : M Runtime :=
  let ext := PyStr.lower (Path.suffix f) in
  if String.eqb ext ".py" then ret RPython
  else if String.eqb ext ".js" then ret RNode
  else if String.eqb ext ".sh" then
    try_except
      (x <- lift (access_x w (Path.str f)) ;;
       log_add ("executable: " +++ (if x : bool then "yes" else "no")))
      (log_add "executable: unknown") ;;;
    ret RBash
  else if String.eqb ext ".go" then ret RGo
  else
    let first :=
      match read_first_line w (Path.str f) with
      | Ok l => PyStr.strip l
      | Err _ => EmptyString
      end in
    let unknown := log_add "runtime: unknown" ;;; ret RUnknown in
    if PyStr.startswith "#!" first then
      if PyStr.contains "python" first then ret RPython
      else if PyStr.contains "node" first then ret RNode
      else if PyStr.contains "bash" first || PyStr.contains "/sh" first
      then ret RBash
      else unknown
    else unknown.

Definition _dir_has (d : Path.t) (name : string) : bool :=
  match exists_and_is_file (Path.div d name) with
  | Ok b => b
  | Err _ => false
  end.

(** [any(d.glob("*.py"))]: a path object is always true. *)
Definition _dir_has_any_py (d : Path.t) : bool :=
  match glob d ".py" with
  | Ok (_ :: _) => true
  | Ok [] => false
  | Err _ => false
  end.

Definition classify_project_dir (d : Path.t) (ep : option Path.t)
  : M (Runtime * ProjectType) :=
  match ep with
  | Some e => rt <- guess_runtime_from_file e ;; ret (rt, App)
  | None =>
      if _dir_has d "package.json" then ret (RNode, Library)
      else if _dir_has d "pyproject.toml" || _dir_has_any_py d then
        (if _dir_has_any_py d
         then log_add "python_dir: py_files_present"
         else ret tt) ;;;
        ret (RPython, Library)
      else if _dir_has d "go.mod" then ret (RGo, Library)
      else ret (RUnknown, UnknownType)
  end.

(** The head of [parse_target]: the stripped argument, or what its quotes
    wrap when that exists on disk. *)
Definition resolve_quoted (raw0 : string) : string :=
  let raw := PyStr.strip raw0 in
  let '(unq, wrapped) := unquote_if_wrapped raw in
  if wrapped then
    match path_exists (Path.of_str unq) with
    | Ok true => unq
    | _ => raw
    end
  else raw.

Definition parse_target (raw0 : string) : M Target :=
  let raw := resolve_quoted raw0 in
  if is_command_input raw then
    match shlex_split w raw with
    | None =>
        log_add "command: parse_error" ;;;
        ret (mkTarget KCommand None None None (Some RUnknown) UnknownType)
    | Some [] =>
        log_add "command: empty" ;;;
        ret (mkTarget KCommand None None None (Some RUnknown) UnknownType)
    | Some cmd =>
        log_add ("input: command=" +++ PyStr.join " " (firstn 6 cmd)
                 +++ (if 6 <? length cmd then " ..." else EmptyString)) ;;;
        rt <- lift (guess_runtime_from_command cmd) ;;
        ret (mkTarget KCommand None (Some cmd) None (Some rt) App)
    end
  else
    let p := Path.of_str raw in
    f <- lift (is_file p) ;;
    if f then
      log_add ("input: file=" +++ Path.str p) ;;;
      rt <- guess_runtime_from_file p ;;
      ret (mkTarget KFile (Some p) None (Some p) (Some rt) App)
    else
      d <- lift (is_dir p) ;;
      if d then
        log_add ("input: dir=" +++ Path.str p) ;;;
        ep <- find_entrypoint_in_dir p ;;
        rp <- classify_project_dir p ep ;;
        ret (mkTarget KDir (Some p) None ep (Some (fst rp)) (snd rp))
      else
        log_add "input: not_found" ;;;
        ret (mkTarget KFile (Some p) None None (Some RUnknown) UnknownType).

Definition which_runtime (rt : Runtime) : option string :=
  match rt with
  | RPython => str_or (shutil_which w "python3") (shutil_which w "python")
  | RNode => shutil_which w "node"
  | RBash => str_or (shutil_which w "bash") (shutil_which w "sh")
  | RGo => shutil_which w "go"
  | RUnknown => None
  end.

Definition get_runtime_version (exe : string) (rt : Runtime) : M unit :=
  try_except
    (emit (SubprocessRun [exe; "--version"]) ;;;
     match subprocess_run w [exe; "--version"] with
     | RunCompleted out err =>
         let out := PyStr.strip (if PyStr.is_empty out then err else out) in
         if PyStr.is_empty out then log_add "runtime_version: unknown"
         else log_add ("runtime_version: "
                       +++ PyStr.take 120 (PyStr.first_line out))
     | RunTimeout => raise TimeoutExpired
     | RunError => raise OSError
     end)
    (log_add "runtime_version: error").

(** The directory both fact collectors look into. *)
Definition base_of (t : Target) : option Path.t :=
  match kind t, path t with
  | KDir, Some p => Some p
  | _, _ =>
      match entrypoint t with
      | Some e => Some (Path.parent e)
      | None => None
      end
  end.

Definition present (p : Path.t) : M string :=
  e <- lift (path_exists p) ;;
  ret (if e : bool then "present" else "absent").

(** [any(... for name in names)] over the virtual-environment names. *)
Fixpoint any_venv (base : Path.t) (names : list string) : M bool :=
  match names with
  | [] => ret false
  | name :: rest =>
      b <- lift (exists_and_is_dir (Path.div base name)) ;;
      if b : bool then ret true else any_venv base rest
  end.

(** [a.exists() or b.exists() or c.exists()] *)
Fixpoint any_exists (ps : list Path.t) : M bool :=
  match ps with
  | [] => ret false
  | p :: rest =>
      b <- lift (path_exists p) ;;
      if b : bool then ret true else any_exists rest
  end.

Definition detect_project_facts (t : Target) : M unit :=
  match base_of t with
  | None => ret tt
  | Some base =>
      (match project_type t with
       | UnknownType => ret tt
       | pt => log_add ("project_type: " +++ project_type_name pt)
       end) ;;;
      let pyproject := Path.div base "pyproject.toml" in
      let requirements := Path.div base "requirements.txt" in
      venv_present <- any_venv base [".venv"; "venv"; "env"] ;;
      let package_json := Path.div base "package.json" in
      let node_modules := Path.div base "node_modules" in
      let package_lock := Path.div base "package-lock.json" in
      let yarn_lock := Path.div base "yarn.lock" in
      let pnpm_lock := Path.div base "pnpm-lock.yaml" in
      let go_mod := Path.div base "go.mod" in
      match runtime_or_unknown t with
      | RPython =>
          a <- present pyproject ;;
          log_add ("pyproject: " +++ a) ;;;
          b <- present requirements ;;
          log_add ("requirements_txt: " +++ b) ;;;
          log_add ("venv: "
                   +++ (if venv_present : bool then "present" else "absent"))
      | RNode =>
          a <- present package_json ;;
          log_add ("package_json: " +++ a) ;;;
          any_lock <- any_exists [package_lock; yarn_lock; pnpm_lock] ;;
          log_add ("lockfile: "
                   +++ (if any_lock : bool then "present" else "absent")) ;;;
          c <- present node_modules ;;
          log_add ("node_modules: " +++ c)
      | RGo =>
          a <- present go_mod ;;
          log_add ("go_mod: " +++ a)
      | _ => ret tt
      end
  end.

Definition VERSION_OPERATORS : list string :=
  ["=="; ">="; "<="; "~="; ">"; "<"; "!="].

(** The inner loop over the version operators. *)
Definition cut_operators (name : string) : string :=
  fold_left
    (fun nm op =>
       if PyStr.contains op nm then PyStr.strip (PyStr.before op nm) else nm)
    VERSION_OPERATORS name.

(** The loop that collects package names from the lines of the
    requirements file; [name.split()[0]] raises on an empty [name]. *)
Fixpoint parse_requirements (max_pkgs : nat) (lines : list string)
  (pkgs : list string) : res (list string) :=
  match lines with
  | [] => Ok pkgs
  | ln :: rest =>
      let s := PyStr.strip ln in
      if PyStr.is_empty s || PyStr.startswith "#" s
      then parse_requirements max_pkgs rest pkgs
      else if PyStr.startswith "-" s || PyStr.startswith "--" s
              || PyStr.contains "://" s || PyStr.startswith "git+" s
      then parse_requirements max_pkgs rest pkgs
      else
        let name := PyStr.strip (PyStr.before ";" s) in
        match PyStr.first_word name with
        | None => Err IndexError
        | Some word =>
            let name := PyStr.strip word in
            let name :=
              if PyStr.contains "[" name then PyStr.before "[" name
              else name in
            let name := cut_operators name in
            let pkgs := if PyStr.is_empty name then pkgs else pkgs ++ [name] in
            if max_pkgs <=? length pkgs then Ok pkgs
            else parse_requirements max_pkgs rest pkgs
        end
  end.

(** The import checks: the packages checked so far and the missing ones. *)
Fixpoint check_imports (pkgs : list string) (checked : nat)
  (missing : list string) : res (nat * list string) :=
  match pkgs with
  | [] => Ok (checked, missing)
  | p :: rest =>
      let checked := checked + 1 in
      let mod_guess := PyStr.replace_char "-"%char "_"%char p in
      match find_spec w mod_guess with
      | Ok true => check_imports rest checked missing
      | Ok false => check_imports rest checked (missing ++ [p])
      | Err e => Err e
      end
  end.

Definition python_deps_probe_from_requirements (t : Target) (max_pkgs : nat)
  : M unit :=
  match runtime t with
  | Some RPython =>
      match base_of t with
      | None => ret tt
      | Some base =>
          let req := Path.div base "requirements.txt" in
          ok <- lift (exists_and_is_file req) ;;
          if negb ok then ret tt
          else
            match read_lines w (Path.str req) with
            | Err _ => log_add "deps_probe: requirements_read_error"
            | Ok lines =>
                pkgs <- lift (parse_requirements max_pkgs lines []) ;;
                match pkgs with
                | [] => log_add "deps_probe: no_packages_parsed"
                | _ =>
                    match check_imports pkgs 0 [] with
                    | Err _ => log_add "deps_probe: error"
                    | Ok (checked, missing) =>
                        log_add ("deps_probe: checked=" +++ PyStr.of_nat checked
                                 +++ " missing="
                                 +++ PyStr.of_nat (length missing)) ;;;
                        match missing with
                        | [] => ret tt
                        | _ =>
                            let head := PyStr.join "," (firstn 6 missing) in
                            let tail :=
                              if 6 <? length missing then " ..."
                              else EmptyString in
                            log_add ("deps_missing: " +++ head +++ tail)
                        end
                    end
                end
            end
      end
  | _ => ret tt
  end.

Definition check_entrypoint_exists (t : Target) : M bool :=
  match entrypoint t with
  | None => log_add "entrypoint: missing" ;;; ret false
  | Some ep =>
      e <- lift (path_exists ep) ;;
      if negb e then log_add "entrypoint: not_found" ;;; ret false
      else
        f <- lift (is_file ep) ;;
        if negb f then log_add "entrypoint: not_file" ;;; ret false
        else ret true
  end.

Definition build_run_command (t : Target) (runtime_exe : option string)
  : M (option (list string)) :=
  match kind t with
  | KCommand =>
      match command t with
      | None | Some [] => log_add "run: command_missing" ;;; ret None
      | Some cmd => ret (Some cmd)
      end
  | _ =>
      match entrypoint t with
      | None => log_add "run: not_applicable" ;;; ret None
      | Some ep =>
          ok <- check_entrypoint_exists t ;;
          if negb ok then ret None
          else
            match runtime_or_unknown t with
            | RPython | RNode | RBash =>
                match runtime_exe with
                | Some (String _ _ as exe) => ret (Some [exe; Path.str ep])
                | _ => log_add "runtime: missing" ;;; ret None
                end
            | RGo =>
                match runtime_exe with
                | Some (String _ _ as exe) =>
                    ret (Some [exe; "run"; Path.str ep])
                | _ => log_add "runtime: missing" ;;; ret None
                end
            | RUnknown => log_add "runtime: unknown" ;;; ret None
            end
      end
  end.

(** [proc.terminate()] inside its own [try]. *)
Definition terminate (cmd : list string) (raises : bool) : M unit :=
  try_except
    (emit (Terminate cmd) ;;;
     if raises then raise OSError else ret tt)
    (ret tt).

Definition run_attempt (cmd : list string) (cwd : option Path.t) : M bool :=
  let cwd_arg := option_map Path.str cwd in
  emit (Popen cmd cwd_arg) ;;;
  match subprocess_popen w cmd cwd_arg with
  | SpawnNotFound => log_add "run: not_found" ;;; ret false
  | SpawnError => log_add "run: spawn_error" ;;; ret false
  | Spawned (Exited code) _ =>
      log_add ("run: exit_code=" +++ PyStr.of_Z code) ;;;
      ret (Z.eqb code 0)
  | Spawned StillRunning raises =>
      log_add "run: timeout_running" ;;;
      terminate cmd raises ;;;
      ret true
  | Spawned WaitError raises =>
      log_add "run: wait_error" ;;;
      terminate cmd raises ;;;
      ret false
  end.

Definition MAX_PKGS : nat := 12.

(** The end of [main]: the library short-circuit and the single run
    attempt. *)
Definition run_stage (t : Target) (runtime_exe : option string) : M unit :=
  match project_type t with
  | Library => success
  | _ =>
      match kind t with
      | KCommand =>
          cmd <- build_run_command t None ;;
          match cmd with
          | None | Some [] => fail
          | Some cmd =>
              ok <- run_attempt cmd None ;;
              if ok : bool then success else fail
          end
      | _ =>
          cmd <- build_run_command t runtime_exe ;;
          match cmd with
          | None | Some [] => fail
          | Some cmd =>
              let cwd :=
                match kind t, path t with
                | KDir, Some p => Some p
                | _, _ => None
                end in
              ok <- run_attempt cmd cwd ;;
              if ok : bool then success else fail
          end
      end
  end.

(** The body of [main] from the resolved target on. *)
Definition pipeline (t : Target) : M unit :=
  let rt := runtime_or_unknown t in
  match rt with
  | RUnknown => log_add "runtime: unknown" ;;; fail
  | _ =>
      let runtime_exe := which_runtime rt in
      match runtime_exe with
      | Some (String _ _ as exe) =>
          get_runtime_version exe rt ;;;
          detect_project_facts t ;;;
          python_deps_probe_from_requirements t MAX_PKGS ;;;
          run_stage t runtime_exe
      | _ => log_add "runtime: missing" ;;; fail
      end
  end.

(** The [try] around the platform fact. *)
Definition platform_fact : M unit :=
  try_except
    (sy <- lift (platform_system w) ;;
     ma <- lift (platform_machine w) ;;
     log_add ("platform: " +++ PyStr.lower sy +++ "_" +++ PyStr.lower ma))
    (ret tt).

(** [main], with [sys.argv] as its argument. *)
Definition main (argv : list string) : M unit :=
  match argv with
  | [_; arg] =>
      platform_fact ;;;
      t <- parse_target arg ;;
      pipeline t
  | _ => log_add "arg: missing_or_extra" ;;; fail
  end.

End Program.

(* ================================================================== *)
(** ** Observations of a run *)
(* ================================================================== *)

Inductive Verdict : Type := Success | Failure.

(** What a finished invocation shows: the printed lines and the exit
    status; an uncaught exception prints a traceback to standard error and
    leaves with status 1. *)
Definition stdout {A} (o : outcome A) : list string :=
  printed (trace (the_state o)).

Definition exit_status {A} (o : outcome A) : option Z :=
  match o with
  | Ret _ _ => None
  | Exit c _ => Some c
  | Raise _ _ => Some 1%Z
  end.

(** The verdict an invocation emitted, if it emitted one. *)
Definition verdict {A} (o : outcome A) : option Verdict :=
  match o with
  | Exit c s =>
      match printed (trace s), c with
      | ["SUCCESS"], 0%Z => Some Success
      | ["FAIL"], 1%Z => Some Failure
      | _, _ => None
      end
  | _ => None
  end.

(** The single emission point did its work: one line, matching status. *)
Definition emitted {A} (o : outcome A) : Prop :=
  (stdout o = ["SUCCESS"] /\ exit_status o = Some 0%Z)
  \/ (stdout o = ["FAIL"] /\ exit_status o = Some 1%Z).

(* ================================================================== *)
(** ** Concrete worlds *)
(* ================================================================== *)

Module Worlds.

(** Nothing on disk, nothing installed. *)
Definition bare : World :=
  {| stat := fun _ => StatAbsent;
     scandir := fun _ => Ok [];
     access_x := fun _ => Ok false;
     read_first_line := fun _ => Err OSError;
     read_lines := fun _ => Err OSError;
     shutil_which := fun _ => None;
     shlex_split := fun _ => None;
     subprocess_run := fun _ => RunError;
     subprocess_popen := fun _ _ => SpawnNotFound;
     find_spec := fun _ => Ok false;
     platform_system := Ok "Linux";
     platform_machine := Ok "x86_64";
     log_writable := true |}.

Fixpoint lookup {A} (k : string) (tbl : list (string * A)) (d : A) : A :=
  match tbl with
  | [] => d
  | (k', v) :: r => if String.eqb k k' then v else lookup k r d
  end.

(** A world given by finite tables over [bare]. *)
Definition make (files : list (string * stat_result))
  (dirs : list (string * list string))
  (texts : list (string * list string))
  (tools : list (string * string))
  (words : list (string * list string))
  (version : run_result) (spawn : spawn_result) : World :=
  {| stat := fun p => lookup p files StatAbsent;
     scandir := fun p => Ok (lookup p dirs []);
     access_x := fun _ => Ok false;
     read_first_line := fun p =>
       match lookup p (map (fun e => (fst e, Some (snd e))) texts) None with
       | Some (l :: _) => Ok l
       | Some [] => Ok EmptyString
       | None => Err OSError
       end;
     read_lines := fun p =>
       match lookup p (map (fun e => (fst e, Some (snd e))) texts) None with
       | Some ls => Ok ls
       | None => Err OSError
       end;
     shutil_which := fun n =>
       lookup n (map (fun e => (fst e, Some (snd e))) tools) None;
     shlex_split := fun s =>
       lookup s (map (fun e => (fst e, Some (snd e))) words) None;
     subprocess_run := fun _ => version;
     subprocess_popen := fun _ _ => spawn;
     find_spec := fun _ => Ok false;
     platform_system := Ok "Linux";
     platform_machine := Ok "x86_64";
     log_writable := true |}.

(** A directory that holds only [package.json]; node is installed. *)
Definition node_library : World :=
  make [("proj", StatOk Directory); ("proj/package.json", StatOk RegularFile)]
       [("proj", ["package.json"])]
       []
       [("node", "/usr/bin/node")]
       []
       (RunCompleted "v20.11.0" EmptyString)
       SpawnNotFound.

(** A python application in the directory [app] of the working
    directory, with the given lines in its [requirements.txt].  Named by
    that relative path, the application is run as [python3 app/main.py]
    with [app] as working directory: the interpreter finds no such file
    there and exits with status 2. *)
Definition python_app (requirements : list string) : World :=
  make [("app", StatOk Directory); ("app/main.py", StatOk RegularFile);
        ("app/requirements.txt", StatOk RegularFile)]
       [("app", ["main.py"; "requirements.txt"])]
       [("app/requirements.txt", requirements)]
       [("python3", "/usr/bin/python3")]
       []
       (RunCompleted "Python 3.11.2" EmptyString)
       (Spawned (Exited 2) false).

(** [w] with another answer to [subprocess.Popen]. *)
Definition with_popen (w : World)
  (popen : list string -> option string -> spawn_result) : World :=
  {| stat := stat w;
     scandir := scandir w;
     access_x := access_x w;
     read_first_line := read_first_line w;
     read_lines := read_lines w;
     shutil_which := shutil_which w;
     shlex_split := shlex_split w;
     subprocess_run := subprocess_run w;
     subprocess_popen := popen;
     find_spec := find_spec w;
     platform_system := platform_system w;
     platform_machine := platform_machine w;
     log_writable := log_writable w |}.

(** One command, started in one directory, runs and exits with status 0;
    whatever else is spawned exits with [other]. *)
Definition runs_only (exe script dir : string) (other : Z)
  (cmd : list string) (cwd : option string) : spawn_result :=
  match cmd, cwd with
  | [e; f], Some d =>
      if String.eqb e exe && String.eqb f script && String.eqb d dir
      then Spawned (Exited 0) false
      else Spawned (Exited other) false
  | _, _ => Spawned (Exited other) false
  end.

(** A python application installed in [/srv/app], whose [main.py] exits
    with status 0 when it is run there; [requirements] holds the lines of
    its [requirements.txt], when it has one. *)
Definition installed_app (requirements : option (list string)) : World :=
  with_popen
    (make ([("/srv/app", StatOk Directory);
            ("/srv/app/main.py", StatOk RegularFile)]
           ++ match requirements with
              | Some _ => [("/srv/app/requirements.txt", StatOk RegularFile)]
              | None => []
              end)
          [("/srv/app",
            "main.py" :: match requirements with
                         | Some _ => ["requirements.txt"]
                         | None => []
                         end)]
          match requirements with
          | Some ls => [("/srv/app/requirements.txt", ls)]
          | None => []
          end
          [("python3", "/usr/bin/python3")]
          []
          (RunCompleted "Python 3.11.2" EmptyString)
          SpawnNotFound)
    (runs_only "/usr/bin/python3" "/srv/app/main.py" "/srv/app" 2%Z).

(** The directory [/srv/jobs] holds a directory named [a.sh] and a regular
    file [b.sh], a script that exits with status 0 when bash runs it
    there; bash started on anything else exits with status 126.  Both
    entries have their execute bits set. *)
Definition mixed_dir : World :=
  {| stat := fun p =>
       lookup p [("/srv/jobs", StatOk Directory);
                 ("/srv/jobs/a.sh", StatOk Directory);
                 ("/srv/jobs/b.sh", StatOk RegularFile)] StatAbsent;
     scandir := fun p => Ok (lookup p [("/srv/jobs", ["b.sh"; "a.sh"])] []);
     access_x := fun _ => Ok true;
     read_first_line := fun _ => Err OSError;
     read_lines := fun _ => Err OSError;
     shutil_which := fun n => lookup n [("bash", Some "/bin/bash")] None;
     shlex_split := fun _ => None;
     subprocess_run := fun _ =>
       RunCompleted "GNU bash, version 5.2.15" EmptyString;
     subprocess_popen :=
       runs_only "/bin/bash" "/srv/jobs/b.sh" "/srv/jobs" 126%Z;
     find_spec := fun _ => Ok false;
     platform_system := Ok "Linux";
     platform_machine := Ok "x86_64";
     log_writable := true |}.

(** A directory that can be entered but not listed: its entries answer to
    [stat], the listing fails with [PermissionError]. *)
Definition unlisted_dir : World :=
  {| stat := fun p =>
       lookup p [("drop", StatOk Directory);
                 ("drop/job.sh", StatOk RegularFile)] StatAbsent;
     scandir := fun _ => Err PermissionError;
     access_x := fun _ => Ok false;
     read_first_line := fun _ => Err OSError;
     read_lines := fun _ => Err OSError;
     shutil_which := fun _ => None;
     shlex_split := fun _ => None;
     subprocess_run := fun _ => RunError;
     subprocess_popen := fun _ _ => SpawnNotFound;
     find_spec := fun _ => Ok false;
     platform_system := Ok "Linux";
     platform_machine := Ok "x86_64";
     log_writable := true |}.

(** A directory whose entries cannot be examined: [stat] on them fails
    with [EACCES]. *)
Definition locked_dir : World :=
  make [("locked", StatOk Directory); ("locked/main.py", StatError);
        ("locked/my notes", StatError)]
       [] [] [("python3", "/usr/bin/python3")] []
       (RunCompleted "Python 3.11.2" EmptyString)
       SpawnNotFound.

(** [python server.py --port 80] typed as a command; the script keeps
    running. *)
Definition command_line : World :=
  make [] [] []
       [("python3", "/usr/bin/python3")]
       [("python server.py --port 80",
         ["python"; "server.py"; "--port"; "80"])]
       (RunCompleted "Python 3.11.2" EmptyString)
       (Spawned StillRunning false).

(** A command with an unbalanced quote: [shlex.split] raises. *)
Definition bad_quote : string := "echo 'abc".

(** A directory [d] that holds the listed regular files, on a machine
    where no runtime is installed. *)
Definition scripts (names : list string) : World :=
  make (("d", StatOk Directory)
        :: map (fun n => ("d/" +++ n, StatOk RegularFile)) names)
       [("d", names)]
       [] [] []
       RunError
       SpawnNotFound.

(** A fact with a bell character in it, as [$'ring\a bell'] gives one. *)
Definition bell_command : string :=
  "ring" +++ String PyStr.BEL " bell".

Definition bell_world : World :=
  make [] [] [] []
    [(bell_command, ["ring" +++ String PyStr.BEL EmptyString; "bell"])]
    RunError SpawnNotFound.

End Worlds.

(* ================================================================== *)
(** ** The vocabulary of the statements *)
(* ================================================================== *)

(** An entry as [Log.add] stores it: at most 240 characters, no line feed. *)
Definition entry_ok (e : string) : Prop :=
  String.length e <= 240
  /\ PyStr.any_char (Ascii.eqb PyStr.LF) e = false.

(** An entry free of every control character, as the data model words it. *)
Definition control_free (e : string) : bool :=
  negb (PyStr.any_char PyStr.iscontrol e).

(** The log after a sequence of [add] calls. *)
Definition add_all (lines : Log.t) (facts : list string) : Log.t :=
  fold_left Log.add facts lines.

(** How a statement ended. *)
Inductive how : Type := ByReturn | ByExit (code : Z) | ByRaise.

Definition how_of {A} (o : outcome A) : how :=
  match o with
  | Ret _ _ => ByReturn
  | Exit c _ => ByExit c
  | Raise _ _ => ByRaise
  end.

(** [keeps R m]: however [m] ends, the state it leaves is [R]-related to
    the state it started in, for that way of ending. *)
Definition keeps (R : state -> how -> state -> Prop) {A} (m : M A) : Prop :=
  forall s, R s (how_of (m s)) (the_state (m s)).

(** The log only grows by [Log.add]. *)
Definition log_grows (s : state) (_ : how) (s' : state) : Prop :=
  exists facts, log s' = add_all (log s) facts.

(** Nothing was done to the outside. *)
Definition same_trace (s : state) (_ : how) (s' : state) : Prop :=
  trace s' = trace s.

(** Nothing is printed before an exit, and an exit comes with its one
    word: SUCCESS with status 0, FAIL with status 1. *)
Definition prints_verdict (s : state) (h : how) (s' : state) : Prop :=
  match h with
  | ByExit c =>
      (c = 0%Z /\ printed (trace s') = printed (trace s) ++ ["SUCCESS"])
      \/ (c = 1%Z /\ printed (trace s') = printed (trace s) ++ ["FAIL"])
  | _ => printed (trace s') = printed (trace s)
  end.

Definition is_quote (q : ascii) : Prop := q = PyStr.SQUOTE \/ q = PyStr.DQUOTE.

(** [s] is [inner] between two copies of one quote character. *)
Definition wraps (s inner : string) : Prop :=
  exists q, is_quote q /\ s = String q (inner +++ String q EmptyString).

(** The existence check with every access error read as a plain no. *)
Definition found_on_disk (w : World) (p : string) : bool :=
  match path_exists w (Path.of_str p) with
  | Ok true => true
  | Ok false => false
  | Err _ => false
  end.

(** What the spawn facility answers to [run_attempt cmd cwd]. *)
Definition spawn_of (w : World) (cmd : list string) (cwd : option Path.t)
  : spawn_result :=
  subprocess_popen w cmd (option_map Path.str cwd).

(** [name] is a regular file of the directory [d]. *)
Definition regular_file (w : World) (d : Path.t) (name : string) : bool :=
  match stat w (Path.str (Path.div d name)) with
  | StatOk RegularFile => true
  | _ => false
  end.

(** Some entry of the listing ends in [ext]. *)
Definition some_match (names : list string) (ext : string) : bool :=
  existsb (PyStr.endswith ext) names.

(** [m] is the least, in the order of strings, of the listed names that
    end in [ext]. *)
Definition least_match (names : list string) (ext m : string) : Prop :=
  In m names /\ PyStr.endswith ext m = true
  /\ forall m', In m' names -> PyStr.endswith ext m' = true ->
                String.leb m m' = true.

(** The listing a glob over [d] works from: a listing refused with
    [PermissionError] counts as an empty one. *)
Definition listing (w : World) (d : Path.t) : res (list string) :=
  match scandir w (Path.str d) with
  | Err PermissionError => Ok []
  | r => r
  end.


(** The word and status of the verdict for a run attempt's answer. *)
Definition word_for (ok : bool) : string := if ok then "SUCCESS" else "FAIL".
Definition status_for (ok : bool) : Z := if ok then 0%Z else 1%Z.

(** What a state shows of the outside, the text written to the log file
    left out. *)
Definition obs (s : state)
  : list string * list (list string) * list (list string * option string) :=
  (printed (trace s), subprocesses (trace s), popens (trace s)).

(** Two runs that end the same way, with the same value, showing the same. *)
Definition alike {A} (o1 o2 : outcome A) : Prop :=
  match o1, o2 with
  | Ret a s1, Ret b s2 => a = b /\ obs s1 = obs s2
  | Exit c s1, Exit d s2 => c = d /\ obs s1 = obs s2
  | Raise e s1, Raise f s2 => e = f /\ obs s1 = obs s2
  | _, _ => False
  end.

(** [blind m]: what [m] does never depends on what the log holds. *)
Definition blind {A} (m : M A) : Prop :=
  forall s1 s2, obs s1 = obs s2 -> alike (m s1) (m s2).

(** The target both malformed cases return: the dataclass defaults, with
    the runtime set to unknown. *)
Definition malformed_command : Target :=
  mkTarget KCommand None None None (Some RUnknown) UnknownType.

(** The target of a directory that holds only [package.json]. *)
Definition node_library_target : Target :=
  mkTarget KDir (Some (Path.of_str "proj")) None None (Some RNode) Library.

(** What a stretch of the program adds to the outside: [runs] to the run
    attempts, [probes ++ map fst runs] to the subprocesses. *)
Definition adds_spawns (s s' : state) (probes : list (list string))
  (runs : list (list string * option string)) : Prop :=
  popens (trace s') = popens (trace s) ++ runs
  /\ subprocesses (trace s') = subprocesses (trace s) ++ probes ++ map fst runs.

(** [a] occurs in [b] as a run of consecutive characters. *)
Definition within (a b : string) : Prop :=
  exists pre post, b = pre +++ a +++ post.

(** A package name as the requirements loop may keep one: not empty, no
    whitespace, no environment marker, no extras, no version operator. *)
Definition clean_name (p : string) : Prop :=
  p <> EmptyString
  /\ PyStr.any_space p = false
  /\ PyStr.contains ";" p = false
  /\ PyStr.contains "[" p = false
  /\ Forall (fun op => PyStr.contains op p = false) VERSION_OPERATORS.

(** [importlib.util.find_spec] found the module guessed for a package. *)
Definition module_found (w : World) (p : string) : bool :=
  match find_spec w (PyStr.replace_char "-"%char "_"%char p) with
  | Ok true => true
  | _ => false
  end.

(** One turn of the loop over the version operators. *)
Definition cut_step (nm op : string) : string :=
  if PyStr.contains op nm then PyStr.strip (PyStr.before op nm) else nm.

(** The statement ended without [SystemExit] and did nothing outside. *)
Definition quiet_no_exit (s : state) (h : how) (s' : state) : Prop :=
  trace s' = trace s /\ forall c, h <> ByExit c.

(** The events that stand for a subprocess. *)
Definition is_spawn (ev : event) : bool :=
  match ev with
  | SubprocessRun _ | Popen _ _ | Terminate _ => true
  | WriteLog _ | Print _ => false
  end.

(** What an emission point leaves at the end of the trace: the log file
    written with the final log, when it can be written, then the word
    printed for the status; nothing when the run did not exit. *)
Definition closing (w : World) {A} (o : outcome A) : list event :=
  match o with
  | Exit c s' =>
      (if log_writable w then [WriteLog (Log.file_text (log s'))] else [])
      ++ [Print (if Z.eqb c 0 then "SUCCESS" else "FAIL")]
  | _ => []
  end.

(** From [s] on, the run only spawned, and then closed. *)
Definition ends_in_order (w : World) {A} (s : state) (o : outcome A) : Prop :=
  exists mid,
    forallb is_spawn mid = true
    /\ trace (the_state o) = trace s ++ mid ++ closing w o.

(** *** Further concrete worlds *)

(** A directory whose name holds a space. *)
Definition world_spaced_dir : World :=
  Worlds.make [("my dir", StatOk Directory)] [("my dir", [])] [] [] []
    RunError SpawnNotFound.

(** The target of the directory [app] of [Worlds.python_app]. *)
Definition python_app_target : Target :=
  mkTarget KDir (Some (Path.of_str "app")) None
    (Some (Path.of_str "app/main.py")) (Some RPython) App.

(* ================================================================== *)
(** ** Facts about the string primitives *)
(* ================================================================== *)

Lemma take_length : forall n s, String.length (PyStr.take n s) <= n.
Proof.
  induction n as [|n IH]; intros s; simpl; [lia|].
  destruct s as [|c r]; simpl; [lia|]. specialize (IH r). lia.
Qed.

Lemma take_any_char : forall p n s,
  PyStr.any_char p s = false -> PyStr.any_char p (PyStr.take n s) = false.
Proof.
  intros p n; induction n as [|n IH]; intros s H; simpl; [reflexivity|].
  destruct s as [|c r]; simpl in *; [reflexivity|].
  apply orb_false_iff in H as [Hc Hr]. rewrite Hc, (IH r Hr). reflexivity.
Qed.

Lemma take_app : forall a b,
  PyStr.take (String.length a) (a +++ b) = a.
Proof.
  induction a as [|c a IH]; intros b; simpl.
  - destruct b; reflexivity.
  - now rewrite IH.
Qed.

Lemma str_length_app : forall a b,
  String.length (a +++ b) = String.length a + String.length b.
Proof. induction a as [|c a IH]; intros b; simpl; [|rewrite IH]; reflexivity. Qed.

Lemma replace_char_removes : forall a b s,
  a <> b ->
  PyStr.any_char (Ascii.eqb a) (PyStr.replace_char a b s) = false.
Proof.
  intros a b s Hab; induction s as [|c r IH]; simpl; [reflexivity|].
  rewrite IH, orb_false_r.
  destruct (Ascii.eqb c a) eqn:E.
  - now apply Ascii.eqb_neq.
  - rewrite Ascii.eqb_sym. exact E.
Qed.

Lemma last_char_app : forall a c,
  PyStr.last_char (a +++ String c EmptyString) = Some c.
Proof.
  induction a as [|x a IH]; intros c; simpl; [reflexivity|].
  rewrite IH. destruct a; reflexivity.
Qed.

Lemma last_char_inv : forall s c,
  PyStr.last_char s = Some c -> exists a, s = a +++ String c EmptyString.
Proof.
  induction s as [|x r IH]; intros c H; simpl in H; [discriminate|].
  destruct r as [|y r'].
  - injection H as <-. now exists EmptyString.
  - destruct (IH c H) as [a Ha]. exists (String x a). simpl. now rewrite Ha.
Qed.

Lemma lstrip_head : forall s,
  PyStr.lstrip s = EmptyString
  \/ exists c r, PyStr.lstrip s = String c r /\ PyStr.isspace c = false.
Proof.
  induction s as [|c r IH]; simpl; [now left|].
  destruct (PyStr.isspace c) eqn:E; [exact IH|].
  right. now exists c, r.
Qed.

Lemma rstrip_idem : forall s, PyStr.rstrip (PyStr.rstrip s) = PyStr.rstrip s.
Proof.
  induction s as [|c r IH]; simpl; [reflexivity|].
  destruct (PyStr.isspace c && PyStr.is_empty (PyStr.rstrip r)) eqn:E.
  - reflexivity.
  - simpl. rewrite IH, E. reflexivity.
Qed.

(** Stripping twice is stripping once. *)
Lemma strip_idem : forall s, PyStr.strip (PyStr.strip s) = PyStr.strip s.
Proof.
  intros s. unfold PyStr.strip.
  destruct (lstrip_head s) as [H | (c & r & H & Hc)]; rewrite H.
  - reflexivity.
  - assert (Hr : PyStr.rstrip (String c r) = String c (PyStr.rstrip r))
      by (simpl; now rewrite Hc).
    rewrite Hr.
    replace (PyStr.lstrip (String c (PyStr.rstrip r)))
      with (String c (PyStr.rstrip r)) by (simpl; now rewrite Hc).
    rewrite <- Hr. apply rstrip_idem.
Qed.

(* ================================================================== *)
(** ** The fact log *)
(* ================================================================== *)

Lemma clean_ok : forall line, entry_ok (Log.clean line).
Proof.
  intros line; split; unfold Log.clean.
  - apply take_length.
  - apply take_any_char, replace_char_removes. discriminate.
Qed.

Lemma add_cases : forall lines line,
  (length lines < LOG_MAX_LINES /\ Log.add lines line = lines ++ [Log.clean line])
  \/ (LOG_MAX_LINES <= length lines /\ Log.add lines line = lines).
Proof.
  intros lines line. unfold Log.add.
  destruct (Nat.ltb_spec (length lines) LOG_MAX_LINES); [left | right]; auto.
Qed.

Lemma add_invariant : forall lines line,
  length lines <= LOG_MAX_LINES -> Forall entry_ok lines ->
  length (Log.add lines line) <= LOG_MAX_LINES
  /\ Forall entry_ok (Log.add lines line).
Proof.
  intros lines line Hlen Hok.
  destruct (add_cases lines line) as [[Hlt ->] | [_ ->]]; [|now split].
  split.
  - rewrite length_app. simpl. lia.
  - apply Forall_app; split; [exact Hok|]. constructor; [apply clean_ok | constructor].
Qed.

Lemma add_all_invariant : forall facts lines,
  length lines <= LOG_MAX_LINES -> Forall entry_ok lines ->
  length (add_all lines facts) <= LOG_MAX_LINES
  /\ Forall entry_ok (add_all lines facts).
Proof.
  induction facts as [|f facts IH]; intros lines Hlen Hok; simpl; [now split|].
  destruct (add_invariant lines f Hlen Hok) as [H1 H2]. now apply IH.
Qed.

Lemma add_all_extends : forall facts lines,
  exists more, add_all lines facts = lines ++ more.
Proof.
  induction facts as [|f facts IH]; intros lines; simpl.
  - exists []. now rewrite app_nil_r.
  - destruct (IH (Log.add lines f)) as [more Hm]. rewrite Hm.
    destruct (add_cases lines f) as [[_ ->] | [_ ->]].
    + exists (Log.clean f :: more). now rewrite <- app_assoc.
    + now exists more.
Qed.

Lemma add_all_full : forall facts lines,
  LOG_MAX_LINES <= length lines -> add_all lines facts = lines.
Proof.
  induction facts as [|f facts IH]; intros lines H; simpl; [reflexivity|].
  destruct (add_cases lines f) as [[Hlt _] | [_ ->]]; [lia | now apply IH].
Qed.

(* ================================================================== *)
(** ** State relations kept by every statement *)
(* ================================================================== *)

Section Keeps.

Variable R : state -> how -> state -> Prop.
Hypothesis R_ret : forall s, R s ByReturn s.
Hypothesis R_raise : forall s, R s ByRaise s.
Hypothesis R_then : forall a b c h, R a ByReturn b -> R b h c -> R a h c.
Hypothesis R_handle : forall a b c h, R a ByRaise b -> R b h c -> R a h c.

Lemma keeps_ret : forall A (a : A), keeps R (ret a).
Proof. intros A a s. apply R_ret. Qed.

Lemma keeps_raise : forall A e, keeps R (@raise A e).
Proof. intros A e s. apply R_raise. Qed.

Lemma keeps_lift : forall A (r : res A), keeps R (lift r).
Proof. intros A [a|e] s; [apply R_ret | apply R_raise]. Qed.

Lemma keeps_bind : forall A B (m : M A) (k : A -> M B),
  keeps R m -> (forall a, keeps R (k a)) -> keeps R (bind m k).
Proof.
  intros A B m k Hm Hk s. unfold bind. specialize (Hm s).
  destruct (m s) as [a s1|c s1|e s1]; simpl in *; try exact Hm.
  eapply R_then; [exact Hm | apply Hk].
Qed.

Lemma keeps_try : forall A (m h : M A),
  keeps R m -> keeps R h -> keeps R (try_except m h).
Proof.
  intros A m h Hm Hh s. unfold try_except. specialize (Hm s).
  destruct (m s) as [a s1|c s1|e s1]; simpl in *; try exact Hm.
  eapply R_handle; [exact Hm | apply Hh].
Qed.

Hypothesis R_log_add : forall line, keeps R (log_add line).

Variable w : World.

Create HintDb keeps_db.

(** Statements are taken apart along their syntax; the functions already
    treated are found in [keeps_db]. *)
Ltac keeps_step :=
  first
    [ apply keeps_ret | apply keeps_raise
    | apply keeps_lift | apply R_log_add
    | solve [auto 2 with keeps_db nocore]
    | apply keeps_try
    | apply keeps_bind
    | match goal with
      | |- forall _, _ => intro
      | |- keeps _ (match ?x with _ => _ end) => destruct x
      | |- keeps _ (if ?x then _ else _) => destruct x
      | |- keeps _ (let _ := ?x in _) => cbv zeta
      end ].

Ltac keeps_auto := repeat keeps_step.

Lemma keeps_find_by_name : forall d names, keeps R (find_by_name w d names).
Proof.
  intros d names; induction names as [|n rest IH]; simpl.
  - keeps_auto.
  - apply keeps_bind; [keeps_auto|]. intros [|]; [keeps_auto | exact IH].
Qed.

Lemma keeps_find_by_extension : forall d exts,
  keeps R (find_by_extension w d exts).
Proof.
  intros d exts; induction exts as [|e rest IH]; simpl.
  - keeps_auto.
  - apply keeps_bind; [keeps_auto|]. intros found.
    destruct (Path.sorted found); [exact IH | keeps_auto].
Qed.

#[local] Hint Resolve keeps_find_by_name keeps_find_by_extension : keeps_db.

Lemma keeps_find_entrypoint_in_dir : forall d,
  keeps R (find_entrypoint_in_dir w d).
Proof. intros d. unfold find_entrypoint_in_dir. keeps_auto. Qed.

Lemma keeps_guess_runtime_from_file : forall f,
  keeps R (guess_runtime_from_file w f).
Proof. intros f. unfold guess_runtime_from_file. keeps_auto. Qed.

#[local] Hint Resolve keeps_find_entrypoint_in_dir
  keeps_guess_runtime_from_file : keeps_db.

Lemma keeps_classify_project_dir : forall d ep,
  keeps R (classify_project_dir w d ep).
Proof. intros d ep. unfold classify_project_dir. keeps_auto. Qed.

#[local] Hint Resolve keeps_classify_project_dir : keeps_db.

Lemma keeps_parse_target : forall raw, keeps R (parse_target w raw).
Proof. intros raw. unfold parse_target. keeps_auto. Qed.

Lemma keeps_any_venv : forall base names, keeps R (any_venv w base names).
Proof.
  intros base names; induction names as [|n rest IH]; simpl.
  - keeps_auto.
  - apply keeps_bind; [keeps_auto|]. intros [|]; [keeps_auto | exact IH].
Qed.

Lemma keeps_any_exists : forall ps, keeps R (any_exists w ps).
Proof.
  intros ps; induction ps as [|p rest IH]; simpl.
  - keeps_auto.
  - apply keeps_bind; [keeps_auto|]. intros [|]; [keeps_auto | exact IH].
Qed.

Lemma keeps_present : forall p, keeps R (present w p).
Proof. intros p. unfold present. keeps_auto. Qed.

#[local] Hint Resolve keeps_any_venv keeps_any_exists keeps_present : keeps_db.

Lemma keeps_detect_project_facts : forall t,
  keeps R (detect_project_facts w t).
Proof. intros t. unfold detect_project_facts. keeps_auto. Qed.

Lemma keeps_python_deps_probe : forall t n,
  keeps R (python_deps_probe_from_requirements w t n).
Proof.
  intros t n. unfold python_deps_probe_from_requirements. keeps_auto.
Qed.

Lemma keeps_check_entrypoint_exists : forall t,
  keeps R (check_entrypoint_exists w t).
Proof. intros t. unfold check_entrypoint_exists. keeps_auto. Qed.

#[local] Hint Resolve keeps_check_entrypoint_exists : keeps_db.

Lemma keeps_build_run_command : forall t exe,
  keeps R (build_run_command w t exe).
Proof. intros t exe. unfold build_run_command. keeps_auto. Qed.

#[local] Hint Resolve keeps_parse_target keeps_detect_project_facts
  keeps_python_deps_probe keeps_build_run_command : keeps_db.

(** The statements below act on the outside: they spawn, and the two
    emission points write the log file, print and exit. *)
Hypothesis R_emit : forall ev, (forall l, ev <> Print l) -> keeps R (emit ev).
Hypothesis R_fail : forall A, keeps R (@fail w A).
Hypothesis R_success : forall A, keeps R (@success w A).

Ltac keeps_io :=
  repeat first
    [ apply R_emit; intros ?; discriminate
    | apply R_fail | apply R_success
    | keeps_step ].

Lemma keeps_get_runtime_version : forall exe rt,
  keeps R (get_runtime_version w exe rt).
Proof. intros exe rt. unfold get_runtime_version. keeps_io. Qed.

Lemma keeps_run_attempt : forall cmd cwd, keeps R (run_attempt w cmd cwd).
Proof. intros cmd cwd. unfold run_attempt, terminate. keeps_io. Qed.

#[local] Hint Resolve keeps_get_runtime_version keeps_run_attempt : keeps_db.

Lemma keeps_run_stage : forall t exe, keeps R (run_stage w t exe).
Proof. intros t exe. unfold run_stage. keeps_io. Qed.

#[local] Hint Resolve keeps_run_stage : keeps_db.

Lemma keeps_pipeline : forall t, keeps R (pipeline w t).
Proof. intros t. unfold pipeline. keeps_io. Qed.

#[local] Hint Resolve keeps_pipeline : keeps_db.

Lemma keeps_main : forall argv, keeps R (main w argv).
Proof. intros argv. unfold main, platform_fact. keeps_io. Qed.

End Keeps.

Lemma printed_app : forall a b, printed (a ++ b) = printed a ++ printed b.
Proof.
  induction a as [|x a IH]; intros b; [reflexivity|].
  destruct x; simpl; now rewrite IH.
Qed.

Lemma subprocesses_app : forall a b,
  subprocesses (a ++ b) = subprocesses a ++ subprocesses b.
Proof.
  induction a as [|x a IH]; intros b; [reflexivity|].
  destruct x; simpl; now rewrite IH.
Qed.

Lemma popens_app : forall a b, popens (a ++ b) = popens a ++ popens b.
Proof.
  induction a as [|x a IH]; intros b; [reflexivity|].
  destruct x; simpl; now rewrite IH.
Qed.

Lemma log_grows_then : forall a b c h h',
  log_grows a h b -> log_grows b h' c -> log_grows a h' c.
Proof.
  intros a b c h h' [f1 H1] [f2 H2]. exists (f1 ++ f2).
  unfold add_all in *. now rewrite fold_left_app, <- H1.
Qed.

Lemma log_grows_emission : forall w A word code,
  keeps log_grows (log_write w ;;; emit (Print word) ;;; @sys_exit A code).
Proof.
  intros w A word code s. unfold log_write, bind, emit, sys_exit.
  destruct (log_writable w); now exists [].
Qed.

(** [main] touches the log through [Log.add] only. *)
Lemma main_log_grows : forall w argv, keeps log_grows (main w argv).
Proof.
  intros w argv. apply keeps_main.
  - intros s. now exists [].
  - intros s. now exists [].
  - intros a b c h. apply log_grows_then.
  - intros a b c h. apply log_grows_then.
  - intros line s. now exists [line].
  - intros ev _ s. now exists [].
  - intros A. apply log_grows_emission.
  - intros A. apply log_grows_emission.
Qed.

Lemma same_trace_then : forall a b c h h',
  same_trace a h b -> same_trace b h' c -> same_trace a h' c.
Proof. unfold same_trace. intros a b c h h' H1 H2. congruence. Qed.

Ltac quiet lemma :=
  apply lemma;
  first [ intros ? ? ? ?; apply same_trace_then
        | unfold keeps, same_trace; intros; reflexivity ].

(** The fact collectors and [parse_target] spawn nothing and print nothing. *)
Lemma detect_project_facts_quiet : forall w t,
  keeps same_trace (detect_project_facts w t).
Proof. intros w t. quiet keeps_detect_project_facts. Qed.

Lemma python_deps_probe_quiet : forall w t n,
  keeps same_trace (python_deps_probe_from_requirements w t n).
Proof. intros w t n. quiet keeps_python_deps_probe. Qed.

Lemma parse_target_quiet : forall w raw, keeps same_trace (parse_target w raw).
Proof. intros w raw. quiet keeps_parse_target. Qed.

Lemma prints_verdict_then : forall a b c h,
  (prints_verdict a ByReturn b \/ prints_verdict a ByRaise b) ->
  prints_verdict b h c -> prints_verdict a h c.
Proof.
  intros a b c h Hab Hbc.
  assert (E : printed (trace b) = printed (trace a)) by (destruct Hab; auto).
  destruct h; simpl in *; rewrite <- E; exact Hbc.
Qed.

(** Every way [main] can end: through an emission point, with its word and
    its status, or by an exception that escapes, with nothing printed. *)
Lemma main_prints_verdict : forall w argv, keeps prints_verdict (main w argv).
Proof.
  intros w argv. apply keeps_main.
  - reflexivity.
  - reflexivity.
  - intros a b c h H. apply prints_verdict_then. now left.
  - intros a b c h H. apply prints_verdict_then. now right.
  - intros line s. reflexivity.
  - intros ev Hev s. simpl. rewrite printed_app.
    destruct ev; simpl; rewrite ?app_nil_r; try reflexivity.
    now elim (Hev line).
  - intros A s. unfold fail, log_write, bind, emit, sys_exit.
    destruct (log_writable w); simpl; right; rewrite !printed_app; simpl;
      now rewrite ?app_nil_r.
  - intros A s. unfold success, log_write, bind, emit, sys_exit.
    destruct (log_writable w); simpl; left; rewrite !printed_app; simpl;
      now rewrite ?app_nil_r.
Qed.

(* ================================================================== *)
(** ** C4: the fact log *)
(* ================================================================== *)

(** C4 (as stated, refuted): the log is not sanitized of control
    characters.  [Log.add] strips the ends, replaces line feeds and cuts at
    240 characters; a bell character inside a fact is stored as it is, and
    an invocation on a command line that holds one writes it to the log. *)
Lemma fact_log_keeps_control_characters :
  Log.add Log.init Worlds.bell_command = [Worlds.bell_command]
  /\ control_free Worlds.bell_command = false
  /\ exists e,
       In e (log (the_state
                    (main Worlds.bell_world ["envcheck.py"; Worlds.bell_command] state0)))
       /\ control_free e = false.
Proof.
  split; [reflexivity|]. split; [reflexivity|].
  exists ("input: command=" +++ Worlds.bell_command). split.
  - vm_compute. right. left. reflexivity.
  - reflexivity.
Qed.

(** What [log_grows] means for the entries: those that were there stay
    where they were, a full log stays as it is, and a log within the bounds
    stays within them. *)
Lemma log_grows_keeps_entries : forall s h s',
  log_grows s h s' ->
  (exists tail, log s' = log s ++ tail)
  /\ (10 <= length (log s) -> log s' = log s)
  /\ (length (log s) <= 10 -> Forall entry_ok (log s) ->
      length (log s') <= 10 /\ Forall entry_ok (log s')).
Proof.
  intros s h s' [fs ->]. split; [apply add_all_extends|]. split.
  - intros H. apply add_all_full. unfold LOG_MAX_LINES. exact H.
  - intros Hlen Hok. now apply add_all_invariant.
Qed.

Ltac grows lemma :=
  apply lemma;
  first [ intros ? ? ? ?; apply log_grows_then
        | intros ?; apply log_grows_emission
        | let l := fresh in intros l ?; now exists [l]
        | intros; now exists [] ].

(** C4 (amended): at every point of an invocation the log changes through
    [Log.add] alone.  From whatever log and state it is started, [main]
    ends with a log that is the one it found after some sequence of adds:
    the entries it found are still there, in their place and order; a log
    of 10 entries is left as it is; a log within the bounds stays within
    them.  The same holds of every function that is handed the log, from
    whatever log it is handed.  Every log built by adds on the empty log
    holds at most 10 entries, each of at most 240 characters and free of
    line feeds; an [add] leaves the entries it finds in place, in their
    order, and appends at most one; and once 10 entries exist further adds
    change nothing. *)
Theorem fact_log_bounded_append_only :
  forall (w : World) (argv : list string) (s : state) (facts : list string),
    let lines := add_all Log.init facts in
    let final := log (the_state (main w argv s)) in
    (exists fs, final = add_all (log s) fs)
    /\ (exists tail, final = log s ++ tail)
    /\ (10 <= length (log s) -> final = log s)
    /\ (length (log s) <= 10 -> Forall entry_ok (log s) ->
        length final <= 10 /\ Forall entry_ok final)
    /\ ((forall A, keeps log_grows (@fail w A))
        /\ (forall A, keeps log_grows (@success w A))
        /\ (forall d, keeps log_grows (find_entrypoint_in_dir w d))
        /\ (forall f, keeps log_grows (guess_runtime_from_file w f))
        /\ (forall d ep, keeps log_grows (classify_project_dir w d ep))
        /\ (forall raw, keeps log_grows (parse_target w raw))
        /\ (forall exe rt, keeps log_grows (get_runtime_version w exe rt))
        /\ (forall t, keeps log_grows (detect_project_facts w t))
        /\ (forall t n,
              keeps log_grows (python_deps_probe_from_requirements w t n))
        /\ (forall t, keeps log_grows (check_entrypoint_exists w t))
        /\ (forall t exe, keeps log_grows (build_run_command w t exe))
        /\ (forall cmd cwd, keeps log_grows (run_attempt w cmd cwd)))
    /\ length lines <= 10
    /\ Forall entry_ok lines
    /\ (forall line,
          Log.add lines line = lines
          \/ Log.add lines line = lines ++ [Log.clean line])
    /\ (forall more, exists tail, add_all lines more = lines ++ tail)
    /\ (forall more, length lines = 10 -> add_all lines more = lines).
Proof.
  intros w argv s facts lines final.
  assert (Hinv : length lines <= LOG_MAX_LINES /\ Forall entry_ok lines).
  { apply add_all_invariant; [simpl; unfold LOG_MAX_LINES; lia | constructor]. }
  destruct Hinv as [Hlen Hok].
  pose proof (main_log_grows w argv s) as Hmain. fold final in Hmain.
  destruct (log_grows_keeps_entries _ _ _ Hmain) as (Htail & Hfull & Hbound).
  split; [exact Hmain|]. split; [exact Htail|]. split; [exact Hfull|].
  split; [exact Hbound|]. split.
  { split; [intros A; apply log_grows_emission|].
    split; [intros A; apply log_grows_emission|].
    split; [intros d; grows keeps_find_entrypoint_in_dir|].
    split; [intros f; grows keeps_guess_runtime_from_file|].
    split; [intros d ep; grows keeps_classify_project_dir|].
    split; [intros raw; grows keeps_parse_target|].
    split; [intros exe rt; grows keeps_get_runtime_version|].
    split; [intros t; grows keeps_detect_project_facts|].
    split; [intros t n; grows keeps_python_deps_probe|].
    split; [intros t; grows keeps_check_entrypoint_exists|].
    split; [intros t exe; grows keeps_build_run_command|].
    intros cmd cwd; grows keeps_run_attempt. }
  split; [exact Hlen|]. split; [exact Hok|]. split.
  - intros line. destruct (add_cases lines line) as [[_ H] | [_ H]]; auto.
  - split; [intros more; apply add_all_extends|].
    intros more H10. apply add_all_full. unfold LOG_MAX_LINES. lia.
Qed.

(** An eleventh and a twelfth fact are dropped and the ten before them
    stay; and an invocation that finds ten entries in the log leaves all
    ten, and nothing else, in it. *)
Lemma fact_log_bounded_witness :
  let facts := ["1"; "2"; "3"; "4"; "5"; "6"; "7"; "8"; "9"; "10"] in
  add_all (add_all Log.init facts) ["11"; "12"] = facts
  /\ log (the_state (main Worlds.node_library ["envcheck.py"; "proj"]
                        {| log := facts; trace := [] |}))
     = facts.
Proof.
  intros facts.
  pose proof (fact_log_bounded_append_only Worlds.node_library
                ["envcheck.py"; "proj"] {| log := facts; trace := [] |} facts)
    as (_ & _ & Hfull & _ & _ & _ & _ & _ & _ & Hmore).
  split.
  - exact (Hmore ["11"; "12"] eq_refl).
  - exact (Hfull (le_n 10)).
Defined.

(* ================================================================== *)
(** ** C3: the input classifier *)
(* ================================================================== *)

Lemma is_quote_eqb : forall q,
  is_quote q <-> Ascii.eqb q PyStr.SQUOTE || Ascii.eqb q PyStr.DQUOTE = true.
Proof.
  intros q. unfold is_quote. rewrite orb_true_iff, !Ascii.eqb_eq. tauto.
Qed.

Lemma unquote_wrapped : forall s inner,
  PyStr.strip s = s -> wraps s inner ->
  unquote_if_wrapped s = (inner, true).
Proof.
  intros s inner Hs (q & Hq & E). unfold unquote_if_wrapped. rewrite Hs.
  subst s. apply is_quote_eqb in Hq. rewrite Hq.
  change (PyStr.last_char (String q (inner +++ String q EmptyString)))
    with (PyStr.last_char (String q inner +++ String q EmptyString)).
  rewrite last_char_app, Ascii.eqb_refl.
  cbn [String.length PyStr.drop]. rewrite str_length_app. cbn [String.length].
  replace (2 <=? S (String.length inner + 1)) with true
    by (symmetry; apply Nat.leb_le; lia).
  replace (S (String.length inner + 1) - 2) with (String.length inner) by lia.
  cbn [andb]. now rewrite take_app.
Qed.

Lemma unquote_not_wrapped : forall s,
  PyStr.strip s = s -> (forall inner, ~ wraps s inner) ->
  unquote_if_wrapped s = (s, false).
Proof.
  intros s Hs Hno. unfold unquote_if_wrapped. rewrite Hs.
  destruct s as [|c0 r]; [reflexivity|].
  destruct ((2 <=? String.length (String c0 r))
            && (Ascii.eqb c0 PyStr.SQUOTE || Ascii.eqb c0 PyStr.DQUOTE)
            && match PyStr.last_char (String c0 r) with
               | Some c => Ascii.eqb c c0
               | None => false
               end) eqn:E; [|reflexivity].
  exfalso.
  apply andb_true_iff in E as [E Hlast]. apply andb_true_iff in E as [Hlen Hq].
  apply Nat.leb_le in Hlen. apply is_quote_eqb in Hq.
  destruct r as [|c1 r']; [simpl in Hlen; lia|].
  destruct (PyStr.last_char (String c0 (String c1 r'))) as [c|] eqn:L;
    [|discriminate].
  apply Ascii.eqb_eq in Hlast. subst c.
  change (PyStr.last_char (String c0 (String c1 r')))
    with (PyStr.last_char (String c1 r')) in L.
  destruct (last_char_inv _ _ L) as [a Ha].
  apply (Hno a). exists c0. split; [exact Hq|]. now rewrite Ha.
Qed.

(** C3: on the trimmed argument [s], (1) wrapped in a matching pair of
    single or double quotes around [inner]: a command exactly when [inner]
    is not found on disk; (2) not wrapped and with whitespace in it: a
    command exactly when [s] is not found on disk; (3) otherwise a path.
    An access error during the existence check counts as not found, so it
    gives a command in cases (1) and (2). *)
Theorem is_command_input_spec :
  forall (w : World) (raw : string),
    let s := PyStr.strip raw in
    (forall inner, wraps s inner ->
       is_command_input w raw = negb (found_on_disk w inner))
    /\ ((forall inner, ~ wraps s inner) -> PyStr.any_space s = true ->
          is_command_input w raw = negb (found_on_disk w s))
    /\ ((forall inner, ~ wraps s inner) -> PyStr.any_space s = false ->
          is_command_input w raw = false)
    /\ (forall inner, wraps s inner ->
          path_exists w (Path.of_str inner) = Err OSError ->
          is_command_input w raw = true)
    /\ ((forall inner, ~ wraps s inner) -> PyStr.any_space s = true ->
          path_exists w (Path.of_str s) = Err OSError ->
          is_command_input w raw = true).
Proof.
  intros w raw s.
  assert (Hs : PyStr.strip s = s) by apply strip_idem.
  assert (W : forall inner, wraps s inner ->
                is_command_input w raw = negb (found_on_disk w inner)).
  { intros inner Hw. unfold is_command_input. fold s.
    rewrite (unquote_wrapped s inner Hs Hw). unfold found_on_disk.
    destruct (path_exists w (Path.of_str inner)) as [[|]|]; reflexivity. }
  assert (N : (forall inner, ~ wraps s inner) ->
              is_command_input w raw
              = if PyStr.any_space s then negb (found_on_disk w s) else false).
  { intros Hno. unfold is_command_input. fold s.
    rewrite (unquote_not_wrapped s Hs Hno). unfold found_on_disk.
    destruct (PyStr.any_space s); [|reflexivity].
    destruct (path_exists w (Path.of_str s)) as [[|]|]; reflexivity. }
  repeat split.
  - exact W.
  - intros Hno Hsp. rewrite (N Hno), Hsp. reflexivity.
  - intros Hno Hsp. rewrite (N Hno), Hsp. reflexivity.
  - intros inner Hw He. rewrite (W inner Hw). unfold found_on_disk.
    now rewrite He.
  - intros Hno Hsp He. rewrite (N Hno), Hsp. unfold found_on_disk.
    now rewrite He.
Qed.

(** A quoted existing directory is a path, a multi-word line that names
    nothing on disk is a command, a bare word is a path; a quoted name and
    a name with a space in it that cannot be examined are commands. *)
Lemma is_command_input_witness :
  is_command_input Worlds.node_library ("  'proj' ") = false
  /\ is_command_input Worlds.command_line "python server.py --port 80" = true
  /\ is_command_input Worlds.bare "main.py" = false
  /\ is_command_input Worlds.locked_dir "'locked/main.py'" = true
  /\ is_command_input Worlds.locked_dir "locked/my notes" = true.
Proof.
  split; [|split; [|split; [|split]]].
  - apply (proj1 (is_command_input_spec Worlds.node_library "  'proj' ") "proj").
    exists PyStr.SQUOTE. split; [left; reflexivity | vm_compute; reflexivity].
  - apply (proj1 (proj2 (is_command_input_spec Worlds.command_line
                           "python server.py --port 80"))).
    + intros inner (q & [Hq | Hq] & E); subst q; discriminate E.
    + vm_compute; reflexivity.
  - apply (proj1 (proj2 (proj2 (is_command_input_spec Worlds.bare "main.py")))).
    + intros inner (q & [Hq | Hq] & E); subst q; discriminate E.
    + vm_compute; reflexivity.
  - apply (proj1 (proj2 (proj2 (proj2
             (is_command_input_spec Worlds.locked_dir "'locked/main.py'"))))
             "locked/main.py").
    + exists PyStr.SQUOTE. split; [left; reflexivity | vm_compute; reflexivity].
    + vm_compute; reflexivity.
  - apply (proj2 (proj2 (proj2 (proj2
             (is_command_input_spec Worlds.locked_dir "locked/my notes"))))).
    + intros inner (q & [Hq | Hq] & E); subst q; discriminate E.
    + vm_compute; reflexivity.
    + vm_compute; reflexivity.
Defined.

(* ================================================================== *)
(** ** C1: the run attempt *)
(* ================================================================== *)

Lemma run_attempt_returns : forall w cmd cwd s,
  exists b s',
    run_attempt w cmd cwd s = Ret b s'
    /\ b = match spawn_of w cmd cwd with
           | Spawned (Exited code) _ => Z.eqb code 0
           | Spawned StillRunning _ => true
           | _ => false
           end
    /\ popens (trace s') = popens (trace s) ++ [(cmd, option_map Path.str cwd)]
    /\ subprocesses (trace s') = subprocesses (trace s) ++ [cmd]
    /\ printed (trace s') = printed (trace s).
Proof.
  intros w cmd cwd s. unfold run_attempt, spawn_of, terminate.
  assert (P : forall tr ev,
             popens (tr ++ [ev]) = popens tr ++ popens [ev]
             /\ subprocesses (tr ++ [ev]) = subprocesses tr ++ subprocesses [ev]
             /\ printed (tr ++ [ev]) = printed tr ++ printed [ev]).
  { intros tr ev. induction tr as [|x tr (I1 & I2 & I3)]; [now repeat split|].
    destruct x; simpl; rewrite ?I1, ?I2, ?I3; now repeat split. }
  destruct (subprocess_popen w cmd (option_map Path.str cwd))
    as [| |[code| |] [|]] eqn:E;
    unfold bind, emit, log_add, try_except, raise, ret; simpl;
    eexists; eexists; (split; [reflexivity|]); simpl;
    repeat rewrite (proj1 (P _ _));
    repeat rewrite (proj1 (proj2 (P _ _)));
    repeat rewrite (proj2 (proj2 (P _ _)));
    simpl; rewrite ?app_nil_r, <- ?app_assoc; simpl; now repeat split.
Qed.

(** C1: the run attempt always returns; it returns success exactly when
    the process exited within the timeout with code 0 or was still running
    when the timeout expired; it returns failure when the process exited
    with a nonzero code, when spawning failed (executable not found or any
    other error), and when the wait raised another error. *)
Theorem run_attempt_verdict :
  forall (w : World) (cmd : list string) (cwd : option Path.t) (s : state),
    exists b s',
      run_attempt w cmd cwd s = Ret b s'
      /\ (b = true <->
            (exists r, spawn_of w cmd cwd = Spawned (Exited 0) r)
            \/ (exists r, spawn_of w cmd cwd = Spawned StillRunning r))
      /\ ((exists code r, spawn_of w cmd cwd = Spawned (Exited code) r
                          /\ code <> 0%Z)
          \/ spawn_of w cmd cwd = SpawnNotFound
          \/ spawn_of w cmd cwd = SpawnError
          \/ (exists r, spawn_of w cmd cwd = Spawned WaitError r)
          -> b = false).
Proof.
  intros w cmd cwd s.
  destruct (run_attempt_returns w cmd cwd s) as (b & s' & Hrun & Hb & _).
  exists b, s'. split; [exact Hrun|]. rewrite Hb. clear Hrun Hb.
  destruct (spawn_of w cmd cwd) as [| |[code| |] r]; split.
  - split; [discriminate | intros [[r E] | [r E]]; discriminate E].
  - reflexivity.
  - split; [discriminate | intros [[r E] | [r E]]; discriminate E].
  - reflexivity.
  - split.
    + intros H. apply Z.eqb_eq in H. subst code. left. now exists r.
    + intros [[r' E] | [r' E]]; [|discriminate E].
      injection E as -> _. reflexivity.
  - intros [(c & r' & E & Hc) | [E | [E | [r' E]]]]; try discriminate E.
    injection E as <- _. now apply Z.eqb_neq.
  - split; [intros _; right; now exists r | reflexivity].
  - intros [(c & r' & E & Hc) | [E | [E | [r' E]]]]; discriminate E.
  - split; [discriminate | intros [[r' E] | [r' E]]; discriminate E].
  - reflexivity.
Qed.

(* ================================================================== *)
(** ** C5: entry-point discovery *)
(* ================================================================== *)

(** *** The order on names and on paths *)

Lemma compare_as_OT : forall a b,
  String.compare a b = String_as_OT.compare a b.
Proof. reflexivity. Qed.

Lemma compare_refl : forall a, String.compare a a = Eq.
Proof.
  intros a. pose proof (String.compare_antisym a a) as H.
  destruct (String.compare a a); simpl in H; congruence.
Qed.

Lemma compare_lt_trans : forall a b c,
  String.compare a b = Lt -> String.compare b c = Lt ->
  String.compare a c = Lt.
Proof.
  intros a b c. rewrite !compare_as_OT.
  apply (@StrictOrder_Transitive _ _ String_as_OT.lt_strorder).
Qed.

Lemma str_ltb_asym : forall a b,
  String.ltb a b = true -> String.ltb b a = false.
Proof.
  intros a b. unfold String.ltb. rewrite (String.compare_antisym a b).
  now destruct (String.compare b a).
Qed.

Lemma str_ltb_negtrans : forall a b c,
  String.ltb a b = false -> String.ltb b c = false -> String.ltb a c = false.
Proof.
  intros a b c. unfold String.ltb. intros Hab Hbc.
  destruct (String.compare a c) eqn:Hac; try reflexivity. exfalso.
  destruct (String.compare a b) eqn:E1; try discriminate.
  - apply String.compare_eq_iff in E1. subst b. now rewrite Hac in Hbc.
  - assert (Hba : String.compare b a = Lt)
      by (rewrite String.compare_antisym, E1; reflexivity).
    now rewrite (compare_lt_trans b a c Hba Hac) in Hbc.
Qed.

Lemma str_ltb_leb : forall a b, String.ltb b a = false <-> String.leb a b = true.
Proof.
  intros a b. unfold String.ltb, String.leb.
  rewrite (String.compare_antisym a b).
  destruct (String.compare b a); simpl; split; congruence.
Qed.

Lemma parts_ltb_common : forall p a b,
  Path.parts_ltb (p ++ [a]) (p ++ [b]) = String.ltb a b.
Proof.
  induction p as [|x p IH]; intros a b; simpl.
  - unfold String.ltb. now destruct (String.compare a b).
  - now rewrite compare_refl, IH.
Qed.

(** Two entries of one directory compare as their names do. *)
Lemma ltb_child : forall d a b,
  Path.ltb (Path.child d a) (Path.child d b) = String.ltb a b.
Proof.
  intros d a b. unfold Path.ltb, Path.child, Path.root_part. simpl.
  rewrite !app_assoc. apply parts_ltb_common.
Qed.

(** *** The head of a sorted list *)

Lemma insert_in : forall x a l, In x (Path.insert a l) <-> x = a \/ In x l.
Proof.
  intros x a l; induction l as [|y l IH]; simpl.
  - intuition congruence.
  - destruct (Path.ltb y a); simpl; rewrite ?IH; intuition congruence.
Qed.

Lemma sorted_in : forall x l, In x (Path.sorted l) <-> In x l.
Proof.
  intros x l; induction l as [|a l IH]; simpl; [tauto|].
  rewrite insert_in, IH. intuition congruence.
Qed.

Lemma sorted_nil : forall l, Path.sorted l = [] -> l = [].
Proof.
  intros [|a l] H; [reflexivity|]. exfalso.
  assert (Hin : In a (Path.sorted (a :: l))) by (apply sorted_in; now left).
  now rewrite H in Hin.
Qed.

Lemma sorted_head_min : forall l h t,
  (forall x y, In x l -> In y l ->
     Path.ltb x y = true -> Path.ltb y x = false) ->
  (forall x y z, In x l -> In y l -> In z l ->
     Path.ltb x y = false -> Path.ltb y z = false -> Path.ltb x z = false) ->
  Path.sorted l = h :: t ->
  In h l /\ forall x, In x l -> Path.ltb x h = false.
Proof.
  induction l as [|a l IH]; intros h t Hasym Htrans Hs; [discriminate|].
  assert (Hirr : forall x, In x (a :: l) -> Path.ltb x x = false).
  { intros x Hx. destruct (Path.ltb x x) eqn:E; [|reflexivity].
    now rewrite (Hasym x x Hx Hx E) in E. }
  simpl in Hs. destruct (Path.sorted l) as [|y t'] eqn:Es.
  - apply sorted_nil in Es. subst l. injection Hs as <- _.
    split; [now left|]. intros x [<-|[]]. apply Hirr. now left.
  - destruct (IH y t') as [Hy Hmin]; auto.
    { intros x0 y0 Hx0 Hy0. apply Hasym; now right. }
    { intros x0 y0 z0 Hx0 Hy0 Hz0. apply Htrans; now right. }
    simpl in Hs. destruct (Path.ltb y a) eqn:Eya; injection Hs as <- _.
    + split; [now right|]. intros x [<-|Hx]; [|now apply Hmin].
      apply Hasym; auto; [now right | now left].
    + split; [now left|]. intros x [<-|Hx]; [apply Hirr; now left|].
      apply (Htrans x y a); auto; [now right | now right | now left].
Qed.

(** *** The two loops *)

Lemma exists_and_is_file_regular : forall w d n,
  stat w (Path.str (Path.div d n)) <> StatError ->
  exists_and_is_file w (Path.div d n) = Ok (regular_file w d n).
Proof.
  intros w d n H. unfold exists_and_is_file, path_exists, is_file, regular_file.
  destruct (stat w (Path.str (Path.div d n))) as [[| |]| |];
    try reflexivity. congruence.
Qed.

Lemma find_by_name_spec : forall w d names s,
  (forall n, In n names -> stat w (Path.str (Path.div d n)) <> StatError) ->
  exists s',
    find_by_name w d names s
    = Ret (option_map (Path.div d) (find (regular_file w d) names)) s'.
Proof.
  intros w d names; induction names as [|n rest IH]; intros s H; simpl.
  - now exists s.
  - unfold bind at 1.
    rewrite (exists_and_is_file_regular w d n) by (apply H; now left).
    simpl. destruct (regular_file w d n).
    + eexists. reflexivity.
    + apply IH. intros m Hm. apply H. now right.
Qed.

Lemma sorted_glob_head : forall d names ext m0 rest,
  Path.sorted (map (Path.child d) (filter (PyStr.endswith ext) names))
  = m0 :: rest ->
  exists m, m0 = Path.child d m /\ least_match names ext m.
Proof.
  intros d names ext m0 rest Hs.
  set (l := map (Path.child d) (filter (PyStr.endswith ext) names)) in *.
  assert (Hl : forall x, In x l ->
                 exists m, x = Path.child d m /\ In m names
                           /\ PyStr.endswith ext m = true).
  { intros x Hx. apply in_map_iff in Hx as (m & <- & Hm).
    apply filter_In in Hm as [Hm He]. now exists m. }
  destruct (sorted_head_min l m0 rest) as [Hin Hmin]; auto.
  - intros x y Hx Hy. destruct (Hl x Hx) as (a & -> & _).
    destruct (Hl y Hy) as (b & -> & _). rewrite !ltb_child. apply str_ltb_asym.
  - intros x y z Hx Hy Hz. destruct (Hl x Hx) as (a & -> & _).
    destruct (Hl y Hy) as (b & -> & _). destruct (Hl z Hz) as (c & -> & _).
    rewrite !ltb_child. apply str_ltb_negtrans.
  - destruct (Hl m0 Hin) as (m & -> & Hm & He). exists m.
    split; [reflexivity|]. split; [exact Hm|]. split; [exact He|].
    intros m' Hm' He'. apply str_ltb_leb. rewrite <- (ltb_child d).
    apply Hmin. apply in_map. apply filter_In. now split.
Qed.

Lemma glob_listing : forall w d ext,
  glob w d ext
  = match listing w d with
    | Ok names => Ok (map (Path.child d) (filter (PyStr.endswith ext) names))
    | Err e => Err e
    end.
Proof.
  intros w d ext. unfold glob, listing.
  now destruct (scandir w (Path.str d)) as [names|[]].
Qed.

Lemma find_by_extension_spec : forall w d names exts s,
  listing w d = Ok names ->
  exists r s',
    find_by_extension w d exts s = Ret r s'
    /\ match find (some_match names) exts with
       | Some ext => exists m, r = Some (Path.child d m)
                               /\ least_match names ext m
       | None => r = None
       end.
Proof.
  intros w d names exts; induction exts as [|ext rest IH]; intros s Hscan; simpl.
  - exists None, s. now split.
  - unfold bind at 1. rewrite glob_listing, Hscan. simpl.
    destruct (Path.sorted
                (map (Path.child d) (filter (PyStr.endswith ext) names)))
      as [|m0 tl] eqn:Es.
    + apply sorted_nil in Es. apply map_eq_nil in Es.
      assert (Hno : some_match names ext = false).
      { unfold some_match. destruct (existsb _ names) eqn:E; [|reflexivity].
        apply existsb_exists in E as (x & Hx & He).
        assert (Hin : In x (filter (PyStr.endswith ext) names))
          by (apply filter_In; now split).
        now rewrite Es in Hin. }
      rewrite Hno. now apply IH.
    + destruct (sorted_glob_head d names ext m0 tl Es) as (m & -> & Hm).
      assert (Hyes : some_match names ext = true).
      { apply existsb_exists. exists m. destruct Hm as (Hin & He & _).
        now split. }
      rewrite Hyes. eexists. eexists. split; [reflexivity|]. now exists m.
Qed.

(** A listing that fails otherwise ends the second loop at its first
    extension. *)
Lemma find_by_extension_raises : forall w d e ext rest s,
  listing w d = Err e ->
  find_by_extension w d (ext :: rest) s = Raise e s.
Proof.
  intros w d e ext rest s H. simpl. unfold bind at 1.
  now rewrite glob_listing, H.
Qed.

(** What discovery answers where the eight names can be examined. *)
Lemma find_entrypoint_in_dir_answers : forall w d s,
  (forall n, In n ENTRYPOINT_PATTERNS ->
     stat w (Path.str (Path.div d n)) <> StatError) ->
  match find (regular_file w d) ENTRYPOINT_PATTERNS with
  | Some n =>
      exists s', find_entrypoint_in_dir w d s = Ret (Some (Path.div d n)) s'
  | None =>
      match listing w d with
      | Ok names =>
          match find (some_match names) [".sh"; ".js"; ".go"] with
          | Some ext =>
              exists m s',
                find_entrypoint_in_dir w d s = Ret (Some (Path.child d m)) s'
                /\ least_match names ext m
          | None => exists s', find_entrypoint_in_dir w d s = Ret None s'
          end
      | Err e => exists s', find_entrypoint_in_dir w d s = Raise e s'
      end
  end.
Proof.
  intros w d s Hstat.
  destruct (find_by_name_spec w d ENTRYPOINT_PATTERNS s Hstat) as [s1 H1].
  assert (E : forall k : option Path.t -> M (option Path.t),
            bind (find_by_name w d ENTRYPOINT_PATTERNS) k s
            = k (option_map (Path.div d)
                   (find (regular_file w d) ENTRYPOINT_PATTERNS)) s1).
  { intros k. unfold bind. now rewrite H1. }
  unfold find_entrypoint_in_dir. rewrite !E. clear E H1.
  destruct (find (regular_file w d) ENTRYPOINT_PATTERNS) as [n|];
    cbn [option_map]; [eexists; reflexivity|].
  destruct (listing w d) as [names|e] eqn:L.
  - destruct (find_by_extension_spec w d names FALLBACK_EXTENSIONS s1 L)
      as (r & s2 & H2 & Hr).
    unfold bind. rewrite !H2.
    change FALLBACK_EXTENSIONS with [".sh"; ".js"; ".go"] in Hr.
    destruct (find (some_match names) [".sh"; ".js"; ".go"]) as [ext|].
    + destruct Hr as (m & -> & Hm). exists m. eexists.
      split; [reflexivity | exact Hm].
    + subst r. eexists. reflexivity.
  - exists s1. unfold bind, FALLBACK_EXTENSIONS.
    now rewrite (find_by_extension_raises w d e _ _ s1 L).
Qed.

(** C5 (the code departs from it): the fallback does not test that what it
    returns is a file.  Where the eight names can be examined, discovery
    tests main.py, run.py, app.py, index.js, main.js, run.sh, main.sh,
    main.go in that order and returns the first that is a regular file, so
    that main.py wins over run.sh; only when none is does it turn to the
    listing of the directory and to the first of .sh, .js, .go that some
    entry carries, and it returns the entry with that extension whose name
    comes first in the order of strings, whatever the entry is (a listing
    refused with [PermissionError] counts as empty, any other failure of
    the listing is raised).  In [/srv/jobs], which holds the directory
    [a.sh] and the script [b.sh], the answer is the directory, and the
    invocation fails on it without a run attempt, although [b.sh] would
    have run.  And where a name cannot be examined, discovery raises
    instead of returning. *)
Theorem fallback_skips_file_test :
  ENTRYPOINT_PATTERNS
  = ["main.py"; "run.py"; "app.py"; "index.js"; "main.js"; "run.sh";
     "main.sh"; "main.go"]
  /\ (forall (w : World) (d : Path.t) (s : state),
        (forall n, In n ENTRYPOINT_PATTERNS ->
           stat w (Path.str (Path.div d n)) <> StatError) ->
        match find (regular_file w d) ENTRYPOINT_PATTERNS with
        | Some n =>
            exists s',
              find_entrypoint_in_dir w d s = Ret (Some (Path.div d n)) s'
        | None =>
            match listing w d with
            | Ok names =>
                match find (some_match names) [".sh"; ".js"; ".go"] with
                | Some ext =>
                    exists m s',
                      find_entrypoint_in_dir w d s
                      = Ret (Some (Path.child d m)) s'
                      /\ least_match names ext m
                | None =>
                    exists s', find_entrypoint_in_dir w d s = Ret None s'
                end
            | Err e => exists s', find_entrypoint_in_dir w d s = Raise e s'
            end
        end)
  /\ (forall (w : World) (d : Path.t) (s : state),
        (forall n, In n ENTRYPOINT_PATTERNS ->
           stat w (Path.str (Path.div d n)) <> StatError) ->
        regular_file w d "run.sh" = true ->
        regular_file w d "main.py" = true ->
        exists s',
          find_entrypoint_in_dir w d s
          = Ret (Some (Path.div d "main.py")) s')
  /\ find_entrypoint_in_dir (Worlds.scripts ["run.sh"; "main.py"])
       (Path.of_str "d") state0
     = Ret (Some (Path.of_str "d/main.py"))
         {| log := ["entrypoint: main.py"]; trace := [] |}
  /\ (stat Worlds.mixed_dir "/srv/jobs/a.sh" = StatOk Directory
      /\ stat Worlds.mixed_dir "/srv/jobs/b.sh" = StatOk RegularFile
      /\ subprocess_popen Worlds.mixed_dir ["/bin/bash"; "/srv/jobs/b.sh"]
           (Some "/srv/jobs")
         = Spawned (Exited 0) false
      /\ find_entrypoint_in_dir Worlds.mixed_dir (Path.of_str "/srv/jobs")
           state0
         = Ret (Some (Path.of_str "/srv/jobs/a.sh"))
             {| log := ["entrypoint: a.sh"]; trace := [] |}
      /\ exists s,
           main Worlds.mixed_dir ["envcheck.py"; "/srv/jobs"] state0
           = Exit 1%Z s
           /\ In "entrypoint: not_file" (log s)
           /\ popens (trace s) = []
           /\ printed (trace s) = ["FAIL"])
  /\ find_entrypoint_in_dir Worlds.unlisted_dir (Path.of_str "drop") state0
     = Ret None {| log := ["entrypoint: none"]; trace := [] |}
  /\ find_entrypoint_in_dir Worlds.locked_dir (Path.of_str "locked") state0
     = Raise OSError state0.
Proof.
  split; [reflexivity|].
  split; [exact find_entrypoint_in_dir_answers|]. split.
  { intros w d s Hstat _ Hmain.
    pose proof (find_entrypoint_in_dir_answers w d s Hstat) as H.
    simpl in H. rewrite Hmain in H. exact H. }
  split; [vm_compute; reflexivity|]. split.
  { split; [reflexivity|]. split; [reflexivity|]. split; [reflexivity|].
    split; [vm_compute; reflexivity|].
    eexists. split; [vm_compute; reflexivity|].
    split; [simpl; tauto|]. split; reflexivity. }
  split; vm_compute; reflexivity.
Qed.

(* ================================================================== *)
(** ** C6: classification of a directory without an entry point *)
(* ================================================================== *)




(* ================================================================== *)
(** ** What the stages of the pipeline do to the outside *)
(* ================================================================== *)

(** What both emission points share: the log is written, one word is
    printed, the process exits with the matching status. *)
Lemma success_exits : forall w A s,
  exists s',
    @success w A s = Exit 0%Z s'
    /\ printed (trace s') = printed (trace s) ++ ["SUCCESS"]
    /\ subprocesses (trace s') = subprocesses (trace s)
    /\ popens (trace s') = popens (trace s).
Proof.
  intros w A s. unfold success, log_write, bind, emit, sys_exit.
  destruct (log_writable w); simpl; eexists; (split; [reflexivity|]); simpl;
    rewrite ?printed_app, ?subprocesses_app, ?popens_app; simpl;
    rewrite ?app_nil_r, <- ?app_assoc; now repeat split.
Qed.

Lemma fail_exits : forall w A s,
  exists s',
    @fail w A s = Exit 1%Z s'
    /\ printed (trace s') = printed (trace s) ++ ["FAIL"]
    /\ subprocesses (trace s') = subprocesses (trace s)
    /\ popens (trace s') = popens (trace s).
Proof.
  intros w A s. unfold fail, log_write, bind, emit, sys_exit.
  destruct (log_writable w); simpl; eexists; (split; [reflexivity|]); simpl;
    rewrite ?printed_app, ?subprocesses_app, ?popens_app; simpl;
    rewrite ?app_nil_r, <- ?app_assoc; now repeat split.
Qed.

(** The version probe always returns, after one call of [subprocess.run]. *)
Lemma get_runtime_version_returns : forall w exe rt s,
  exists s',
    get_runtime_version w exe rt s = Ret tt s'
    /\ trace s' = trace s ++ [SubprocessRun [exe; "--version"]].
Proof.
  intros w exe rt s.
  unfold get_runtime_version, try_except, bind, emit, log_add, raise.
  destruct (subprocess_run w [exe; "--version"]) as [out err| |]; simpl;
    try (eexists; split; reflexivity).
  destruct (PyStr.is_empty
              (PyStr.strip (if PyStr.is_empty out then err else out)));
    eexists; split; reflexivity.
Qed.

Lemma platform_fact_returns : forall w s,
  exists s', platform_fact w s = Ret tt s' /\ trace s' = trace s.
Proof.
  intros w s. unfold platform_fact, try_except, bind, lift, log_add, ret, raise.
  destruct (platform_system w); simpl;
    [destruct (platform_machine w); simpl|]; eexists; split; reflexivity.
Qed.

Lemma bind_ret_eq : forall A B (m : M A) (k : A -> M B) s a s1,
  m s = Ret a s1 -> bind m k s = k a s1.
Proof. intros A B m k s a s1 H. unfold bind. now rewrite H. Qed.

(** A command target has no directory to look into. *)
Lemma base_of_command : forall t,
  kind t = KCommand -> entrypoint t = None -> base_of t = None.
Proof. intros t Hk He. unfold base_of. now rewrite Hk, He. Qed.

Lemma detect_project_facts_no_base : forall w t s,
  base_of t = None -> detect_project_facts w t s = Ret tt s.
Proof. intros w t s H. unfold detect_project_facts. now rewrite H. Qed.

Lemma python_deps_probe_no_base : forall w t n s,
  base_of t = None -> python_deps_probe_from_requirements w t n s = Ret tt s.
Proof.
  intros w t n s H. unfold python_deps_probe_from_requirements. rewrite H.
  now destruct (runtime t) as [[| | | |]|].
Qed.

(* ================================================================== *)
(** ** C10: what a command target spawns *)
(* ================================================================== *)

Lemma pipeline_command : forall w t s cmd exe,
  kind t = KCommand -> entrypoint t = None -> command t = Some cmd ->
  cmd <> [] -> project_type t = App ->
  runtime_or_unknown t <> RUnknown ->
  which_runtime w (runtime_or_unknown t) = Some exe -> exe <> EmptyString ->
  exists ok s',
    pipeline w t s = Exit (status_for ok) s'
    /\ printed (trace s') = printed (trace s) ++ [word_for ok]
    /\ subprocesses (trace s')
       = subprocesses (trace s) ++ [[exe; "--version"]; cmd]
    /\ popens (trace s') = popens (trace s) ++ [(cmd, None)]
    /\ ok = match subprocess_popen w cmd None with
            | Spawned (Exited code) _ => Z.eqb code 0
            | Spawned StillRunning _ => true
            | _ => false
            end.
Proof.
  intros w t s cmd exe Hk He Hc Hne Hpt Hrt Hwhich Hexe.
  pose proof (base_of_command t Hk He) as Hbase.
  unfold pipeline. rewrite Hwhich.
  destruct exe as [|e0 exe']; [congruence|].
  destruct (get_runtime_version_returns w (String e0 exe')
              (runtime_or_unknown t) s) as (s1 & Hv & Htr1).
  assert (Hbuild : build_run_command w t None s1 = Ret (Some cmd) s1).
  { unfold build_run_command. rewrite Hk, Hc.
    destruct cmd; [congruence | reflexivity]. }
  destruct (run_attempt_returns w cmd None s1)
    as (ok & s2 & Hrun & Hok & Hp2 & Hs2 & Hpr2).
  assert (Hbody :
    (get_runtime_version w (String e0 exe') (runtime_or_unknown t) ;;;
     detect_project_facts w t ;;;
     python_deps_probe_from_requirements w t MAX_PKGS ;;;
     run_stage w t (Some (String e0 exe'))) s
    = (if ok then @success w unit else @fail w unit) s2).
  { rewrite (bind_ret_eq _ _ _ _ _ _ _ Hv).
    rewrite (bind_ret_eq _ _ _ _ _ _ _
               (detect_project_facts_no_base w t s1 Hbase)).
    rewrite (bind_ret_eq _ _ _ _ _ _ _
               (python_deps_probe_no_base w t MAX_PKGS s1 Hbase)).
    unfold run_stage. rewrite Hpt, Hk.
    rewrite (bind_ret_eq _ _ _ _ _ _ _ Hbuild).
    destruct cmd as [|c0 cs]; [congruence|].
    now rewrite (bind_ret_eq _ _ _ _ _ _ _ Hrun). }
  assert (Hfinal :
    exists s',
      (if ok then @success w unit else @fail w unit) s2
      = Exit (status_for ok) s'
      /\ printed (trace s') = printed (trace s) ++ [word_for ok]
      /\ subprocesses (trace s')
         = subprocesses (trace s) ++ [[String e0 exe'; "--version"]; cmd]
      /\ popens (trace s') = popens (trace s) ++ [(cmd, None)]).
  { destruct ok;
      [destruct (success_exits w unit s2) as (s' & E & P1 & P2 & P3)
      |destruct (fail_exits w unit s2) as (s' & E & P1 & P2 & P3)];
      exists s'; (split; [exact E|]);
      rewrite P1, P2, P3, Hpr2, Hs2, Hp2, Htr1,
        printed_app, subprocesses_app, popens_app; simpl;
      rewrite ?app_nil_r, <- ?app_assoc; now repeat split. }
  destruct Hfinal as (s' & E & P1 & P2 & P3).
  exists ok, s'. split; [|now repeat split].
  destruct (runtime_or_unknown t); try congruence;
    (etransitivity; [exact Hbody | exact E]).
Qed.

Lemma parse_target_command : forall w raw s c cs rt,
  is_command_input w (resolve_quoted w raw) = true ->
  shlex_split w (resolve_quoted w raw) = Some (c :: cs) ->
  guess_runtime_from_command (c :: cs) = Ok rt ->
  exists s',
    parse_target w raw s
    = Ret (mkTarget KCommand None (Some (c :: cs)) None (Some rt) App) s'
    /\ trace s' = trace s.
Proof.
  intros w raw s c cs rt Hcmd Hsplit Hrt. unfold parse_target.
  rewrite Hcmd, Hsplit. unfold bind, log_add. rewrite Hrt. simpl.
  eexists. split; reflexivity.
Qed.

(** C10: when the argument is classified as a command, tokenizes to a
    non-empty list whose head names a known runtime, and the runtime's
    executable is found, the invocation makes one run attempt; the command
    line it spawns is the token list itself, with no working directory
    given; the executable found for the runtime appears only in the version
    probe; and the verdict is the one of that run attempt. *)
Theorem command_target_spawns_user_tokens :
  forall (w : World) (prog raw : string) (cmd : list string) (rt : Runtime)
         (exe : string),
    is_command_input w (resolve_quoted w raw) = true ->
    shlex_split w (resolve_quoted w raw) = Some cmd ->
    cmd <> [] ->
    guess_runtime_from_command cmd = Ok rt ->
    rt <> RUnknown ->
    which_runtime w rt = Some exe ->
    exe <> EmptyString ->
    exists ok s',
      main w [prog; raw] state0 = Exit (status_for ok) s'
      /\ popens (trace s') = [(cmd, None)]
      /\ subprocesses (trace s') = [[exe; "--version"]; cmd]
      /\ printed (trace s') = [word_for ok]
      /\ (ok = match subprocess_popen w cmd None with
               | Spawned (Exited code) _ => Z.eqb code 0
               | Spawned StillRunning _ => true
               | _ => false
               end).
Proof.
  intros w prog raw cmd rt exe Hcmd Hsplit Hne Hrt Hknown Hwhich Hexe.
  destruct cmd as [|c cs]; [congruence|].
  destruct (platform_fact_returns w state0) as (s1 & Hp & Ht1).
  destruct (parse_target_command w raw s1 c cs rt Hcmd Hsplit Hrt)
    as (s2 & Hparse & Ht2).
  set (t := mkTarget KCommand None (Some (c :: cs)) None (Some rt) App) in *.
  destruct (pipeline_command w t s2 (c :: cs) exe)
    as (ok & s' & E & P1 & P2 & P3 & Hok);
    try reflexivity; try assumption.
  exists ok, s'.
  assert (Hmain : main w [prog; raw] state0 = Exit (status_for ok) s').
  { unfold main. rewrite (bind_ret_eq _ _ _ _ _ _ _ Hp).
    now rewrite (bind_ret_eq _ _ _ _ _ _ _ Hparse). }
  rewrite Ht2, Ht1 in P1, P2, P3. simpl in P1, P2, P3.
  now repeat split.
Qed.

(** [python server.py --port 80]: the four words are spawned as they are,
    [/usr/bin/python3] is only asked for its version. *)
Lemma command_target_spawns_user_tokens_witness :
  exists ok s',
    main Worlds.command_line ["envcheck.py"; "python server.py --port 80"]
      state0 = Exit (status_for ok) s'
    /\ popens (trace s') = [(["python"; "server.py"; "--port"; "80"], None)]
    /\ subprocesses (trace s')
       = [["/usr/bin/python3"; "--version"];
          ["python"; "server.py"; "--port"; "80"]]
    /\ printed (trace s') = [word_for ok]
    /\ ok = true.
Proof.
  apply (command_target_spawns_user_tokens Worlds.command_line "envcheck.py"
           "python server.py --port 80"
           ["python"; "server.py"; "--port"; "80"] RPython "/usr/bin/python3");
    try reflexivity; discriminate.
Defined.

(* ================================================================== *)
(** ** C9: command targets *)
(* ================================================================== *)

(** C9 (as stated, refuted): an argument classified as a command does not
    always resolve to a target of project type app.  The line with an
    unbalanced quote is classified as a command, its tokenization fails,
    and the target returned carries the default project type, unknown. *)
Lemma malformed_command_is_not_app :
  is_command_input Worlds.command_line
    (resolve_quoted Worlds.command_line Worlds.bad_quote) = true
  /\ shlex_split Worlds.command_line
       (resolve_quoted Worlds.command_line Worlds.bad_quote) = None
  /\ exists t s',
       parse_target Worlds.command_line Worlds.bad_quote state0 = Ret t s'
       /\ kind t = KCommand
       /\ project_type t = UnknownType
       /\ project_type t <> App.
Proof.
  split; [reflexivity|]. split; [reflexivity|].
  exists malformed_command. eexists. split; [reflexivity|].
  split; [reflexivity|]. split; [reflexivity | discriminate].
Qed.

Lemma pipeline_unknown_runtime : forall w t s,
  runtime_or_unknown t = RUnknown ->
  exists s',
    pipeline w t s = Exit 1%Z s'
    /\ printed (trace s') = printed (trace s) ++ ["FAIL"]
    /\ subprocesses (trace s') = subprocesses (trace s)
    /\ popens (trace s') = popens (trace s).
Proof.
  intros w t s H. unfold pipeline. rewrite H.
  erewrite bind_ret_eq by reflexivity.
  destruct (fail_exits w unit (the_state (log_add "runtime: unknown" s)))
    as (s' & E & P). now exists s'.
Qed.

(** C9 (amended): for an argument classified as a command, a tokenization
    that yields a non-empty token list gives a command target that holds
    the list, with the runtime guessed from its head and project type app;
    a tokenization error or an empty token list gives the malformed command
    target, with no command, runtime unknown and project type unknown, and
    on that target the pipeline prints FAIL and exits with status 1 without
    spawning anything. *)
Theorem parse_target_command_cases :
  forall (w : World) (raw : string) (s : state),
    is_command_input w (resolve_quoted w raw) = true ->
    match shlex_split w (resolve_quoted w raw) with
    | Some (c :: cs) =>
        exists rt s',
          guess_runtime_from_command (c :: cs) = Ok rt
          /\ parse_target w raw s
             = Ret (mkTarget KCommand None (Some (c :: cs)) None (Some rt) App)
                 s'
    | _ =>
        exists s',
          parse_target w raw s = Ret malformed_command s'
          /\ forall s1, exists s2,
               pipeline w malformed_command s1 = Exit 1%Z s2
               /\ printed (trace s2) = printed (trace s1) ++ ["FAIL"]
               /\ subprocesses (trace s2) = subprocesses (trace s1)
    end.
Proof.
  intros w raw s Hcmd.
  assert (Hfail : forall s1, exists s2,
            pipeline w malformed_command s1 = Exit 1%Z s2
            /\ printed (trace s2) = printed (trace s1) ++ ["FAIL"]
            /\ subprocesses (trace s2) = subprocesses (trace s1)).
  { intros s1.
    destruct (pipeline_unknown_runtime w malformed_command s1 eq_refl)
      as (s2 & E & P1 & P2 & _). now exists s2. }
  destruct (shlex_split w (resolve_quoted w raw)) as [[|c cs]|] eqn:Hsplit.
  - eexists. split; [|exact Hfail].
    unfold parse_target. rewrite Hcmd, Hsplit. reflexivity.
  - assert (Hrt : exists rt, guess_runtime_from_command (c :: cs) = Ok rt).
    { unfold guess_runtime_from_command.
      repeat match goal with
             | |- context [if ?b then _ else _] => destruct b
             end; eexists; reflexivity. }
    destruct Hrt as [rt Hrt].
    destruct (parse_target_command w raw s c cs rt Hcmd Hsplit Hrt)
      as (s' & E & _).
    now exists rt, s'.
  - eexists. split; [|exact Hfail].
    unfold parse_target. rewrite Hcmd, Hsplit. reflexivity.
Qed.

(** The well-formed line resolves to an app target; the line with the
    unbalanced quote resolves to the malformed target, and fails. *)
Lemma parse_target_command_cases_witness :
  (exists rt s',
     guess_runtime_from_command ["python"; "server.py"; "--port"; "80"] = Ok rt
     /\ parse_target Worlds.command_line "python server.py --port 80" state0
        = Ret (mkTarget KCommand None
                 (Some ["python"; "server.py"; "--port"; "80"]) None
                 (Some rt) App) s')
  /\ (exists s',
        parse_target Worlds.command_line Worlds.bad_quote state0
        = Ret malformed_command s'
        /\ forall s1, exists s2,
             pipeline Worlds.command_line malformed_command s1 = Exit 1%Z s2
             /\ printed (trace s2) = printed (trace s1) ++ ["FAIL"]
             /\ subprocesses (trace s2) = subprocesses (trace s1)).
Proof.
  split.
  - exact (parse_target_command_cases Worlds.command_line
             "python server.py --port 80" state0 eq_refl).
  - exact (parse_target_command_cases Worlds.command_line
             Worlds.bad_quote state0 eq_refl).
Defined.

(* ================================================================== *)
(** ** C2: library targets *)
(* ================================================================== *)

(** C2 (as stated, refuted): a library target does not reach its Success
    without any subprocess.  For the directory that holds only
    package.json, with node installed, the invocation prints SUCCESS, and
    before that it has run [/usr/bin/node --version]: the version probe
    comes before the library short-circuit. *)
Lemma library_target_runs_version_probe :
  (exists s, parse_target Worlds.node_library "proj" state0
             = Ret node_library_target s)
  /\ which_runtime Worlds.node_library RNode = Some "/usr/bin/node"
  /\ exists s',
       main Worlds.node_library ["envcheck.py"; "proj"] state0 = Exit 0%Z s'
       /\ printed (trace s') = ["SUCCESS"]
       /\ subprocesses (trace s') = [["/usr/bin/node"; "--version"]]
       /\ subprocesses (trace s') <> [].
Proof.
  split; [eexists; vm_compute; reflexivity|]. split; [reflexivity|].
  eexists. split; [vm_compute; reflexivity|]. split; [reflexivity|].
  split; [reflexivity | discriminate].
Qed.

(** C2 (amended): for every library target with a known runtime whose
    executable is found, the run orchestrator is never invoked and the one
    subprocess created is the version probe of that executable; and when
    the fact collection and the dependency probe complete, the verdict
    emitted is Success. *)
Theorem library_target_skips_run :
  forall (w : World) (t : Target) (s : state) (exe : string),
    project_type t = Library ->
    runtime_or_unknown t <> RUnknown ->
    which_runtime w (runtime_or_unknown t) = Some exe ->
    exe <> EmptyString ->
    let o := pipeline w t s in
    popens (trace (the_state o)) = popens (trace s)
    /\ subprocesses (trace (the_state o))
       = subprocesses (trace s) ++ [[exe; "--version"]]
    /\ ((forall s1, exists s2, detect_project_facts w t s1 = Ret tt s2) ->
        (forall s1, exists s2,
           python_deps_probe_from_requirements w t MAX_PKGS s1 = Ret tt s2) ->
        exists s',
          o = Exit 0%Z s'
          /\ printed (trace s') = printed (trace s) ++ ["SUCCESS"]).
Proof.
  intros w t s exe Hpt Hrt Hwhich Hexe o.
  destruct exe as [|e0 exe']; [congruence|].
  destruct (get_runtime_version_returns w (String e0 exe')
              (runtime_or_unknown t) s) as (s1 & Hv & Htr1).
  set (body :=
    detect_project_facts w t ;;;
    python_deps_probe_from_requirements w t MAX_PKGS ;;;
    @success w unit).
  assert (Ho : o = body s1).
  { unfold o, pipeline, run_stage. rewrite Hwhich, Hpt.
    destruct (runtime_or_unknown t); try congruence;
      now rewrite (bind_ret_eq _ _ _ _ _ _ _ Hv). }
  pose proof (detect_project_facts_quiet w t s1) as Q1.
  unfold same_trace in Q1.
  assert (Hshape :
    (popens (trace (the_state (body s1))) = popens (trace s1)
     /\ subprocesses (trace (the_state (body s1))) = subprocesses (trace s1))
    /\ ((forall s1, exists s2, detect_project_facts w t s1 = Ret tt s2) ->
        (forall s1, exists s2,
           python_deps_probe_from_requirements w t MAX_PKGS s1 = Ret tt s2) ->
        exists s',
          body s1 = Exit 0%Z s'
          /\ printed (trace s') = printed (trace s1) ++ ["SUCCESS"])).
  { unfold body, bind.
    destruct (detect_project_facts w t s1) as [[] s2|c s2|e s2] eqn:E1;
      simpl in Q1.
    - pose proof (python_deps_probe_quiet w t MAX_PKGS s2) as Q2.
      unfold same_trace in Q2.
      destruct (python_deps_probe_from_requirements w t MAX_PKGS s2)
        as [[] s3|c s3|e s3] eqn:E2; simpl in Q2.
      + destruct (success_exits w unit s3) as (s' & E & P1 & P2 & P3).
        rewrite E. simpl. rewrite P2, P3, Q2, Q1. split; [now split|].
        intros _ _. exists s'. split; [reflexivity|]. now rewrite P1, Q2, Q1.
      + simpl. rewrite Q2, Q1. split; [now split|].
        intros _ H. destruct (H s2) as [x Hx]. congruence.
      + simpl. rewrite Q2, Q1. split; [now split|].
        intros _ H. destruct (H s2) as [x Hx]. congruence.
    - simpl. rewrite Q1. split; [now split|].
      intros H _. destruct (H s1) as [x Hx]. congruence.
    - simpl. rewrite Q1. split; [now split|].
      intros H _. destruct (H s1) as [x Hx]. congruence. }
  rewrite Ho. destruct Hshape as [[H1 H2] H3].
  rewrite H1, H2, Htr1, popens_app, subprocesses_app, printed_app in *.
  simpl. rewrite app_nil_r. split; [reflexivity|]. split; [reflexivity|].
  intros F P. destruct (H3 F P) as (s' & E & Pr). exists s'.
  split; [exact E|]. simpl in Pr. now rewrite app_nil_r in Pr.
Qed.

(** The directory with only package.json: Success, after the version probe
    of node and nothing else. *)
Lemma library_target_skips_run_witness :
  let o := pipeline Worlds.node_library node_library_target state0 in
  popens (trace (the_state o)) = []
  /\ subprocesses (trace (the_state o)) = [["/usr/bin/node"; "--version"]]
  /\ exists s', o = Exit 0%Z s' /\ printed (trace s') = ["SUCCESS"].
Proof.
  intros o.
  destruct (library_target_skips_run Worlds.node_library node_library_target
              state0 "/usr/bin/node") as (H1 & H2 & H3);
    try reflexivity; try discriminate.
  split; [exact H1|]. split; [exact H2|].
  apply H3; intros s1; eexists; vm_compute; reflexivity.
Defined.

(* ================================================================== *)
(** ** C7: the dependency probe *)
(* ================================================================== *)

(** *** What the facts of a probe that returns cannot do *)

Lemma obs_emit : forall s1 s2 ev,
  obs s1 = obs s2 ->
  obs {| log := log s1; trace := trace s1 ++ [ev] |}
  = obs {| log := log s2; trace := trace s2 ++ [ev] |}.
Proof.
  intros s1 s2 ev H. unfold obs in *. simpl.
  rewrite !printed_app, !subprocesses_app, !popens_app.
  injection H as -> -> ->. reflexivity.
Qed.

Lemma blind_ret : forall A (a : A), blind (ret a).
Proof. intros A a s1 s2 H. now split. Qed.

Lemma blind_raise : forall A e, blind (@raise A e).
Proof. intros A e s1 s2 H. now split. Qed.

Lemma blind_sys_exit : forall A c, blind (@sys_exit A c).
Proof. intros A c s1 s2 H. now split. Qed.

Lemma blind_lift : forall A (r : res A), blind (lift r).
Proof. intros A [a|e] s1 s2 H; now split. Qed.

Lemma blind_log_add : forall line, blind (log_add line).
Proof. intros line s1 s2 H. now split. Qed.

Lemma blind_emit : forall ev, blind (emit ev).
Proof. intros ev s1 s2 H. split; [reflexivity | now apply obs_emit]. Qed.

Lemma blind_log_write : forall w, blind (log_write w).
Proof.
  intros w s1 s2 H. unfold log_write. destruct (log_writable w).
  - split; [reflexivity|]. unfold emit, obs in *. simpl.
    rewrite !printed_app, !subprocesses_app, !popens_app. simpl.
    rewrite !app_nil_r. exact H.
  - now split.
Qed.

Lemma blind_bind : forall A B (m : M A) (k : A -> M B),
  blind m -> (forall a, blind (k a)) -> blind (bind m k).
Proof.
  intros A B m k Hm Hk s1 s2 H. unfold bind. specialize (Hm s1 s2 H).
  destruct (m s1) as [a x|c x|e x], (m s2) as [b y|d y|f y];
    simpl in Hm; try contradiction; try exact Hm.
  destruct Hm as [<- Hxy]. now apply Hk.
Qed.

Lemma blind_try : forall A (m h : M A),
  blind m -> blind h -> blind (try_except m h).
Proof.
  intros A m h Hm Hh s1 s2 H. unfold try_except. specialize (Hm s1 s2 H).
  destruct (m s1) as [a x|c x|e x], (m s2) as [b y|d y|f y];
    simpl in Hm; try contradiction; try exact Hm.
  destruct Hm as [_ Hxy]. now apply Hh.
Qed.

Ltac blind_auto :=
  repeat first
    [ apply blind_ret | apply blind_raise | apply blind_sys_exit
    | apply blind_lift | apply blind_log_add | apply blind_emit
    | apply blind_log_write | apply blind_try | apply blind_bind
    | match goal with
      | |- forall _, _ => intro
      | |- blind (match ?x with _ => _ end) => destruct x
      | |- blind (if ?x then _ else _) => destruct x
      | |- blind (let _ := ?x in _) => cbv zeta
      end ].

(** The run stage is blind to the log. *)
Lemma run_stage_blind : forall w t exe, blind (run_stage w t exe).
Proof.
  intros w t exe.
  unfold run_stage, build_run_command, check_entrypoint_exists, run_attempt,
    terminate, success, fail.
  blind_auto.
Qed.

(** X19: When the probe returns, whatever it found, the run stage goes on as it
    would have without the probe: same run attempt, same word printed, same
    exit status.  Only the log differs. *)
Lemma returned_probe_leaves_verdict : forall w t n exe s s',
  python_deps_probe_from_requirements w t n s = Ret tt s' ->
  alike (run_stage w t exe s') (run_stage w t exe s).
Proof.
  intros w t n exe s s' H. apply run_stage_blind.
  pose proof (python_deps_probe_quiet w t n s) as Q.
  rewrite H in Q. unfold same_trace in Q. simpl in Q.
  unfold obs. now rewrite Q.
Qed.

(** C7 (the code departs from it): the probe can change the outcome.  The
    package-name loop takes the first word of what stands before the
    semicolon of a line, outside any [try]; on the line [;] nothing stands
    there, the indexing raises, and the exception leaves [main].  The
    application installed in [/srv/app] is run once, as
    [python3 /srv/app/main.py] in [/srv/app], and ends in Success without a
    requirements file and with one that lists a package that is not
    installed; with the line [;] it ends without a verdict and without a
    run attempt. *)
Theorem requirements_line_changes_outcome :
  parse_requirements MAX_PKGS [";"] [] = Err IndexError
  /\ (let o := main (Worlds.installed_app None)
                 ["envcheck.py"; "/srv/app"] state0 in
      verdict o = Some Success
      /\ popens (trace (the_state o))
         = [(["/usr/bin/python3"; "/srv/app/main.py"], Some "/srv/app")])
  /\ (let o := main (Worlds.installed_app (Some ["requests"]))
                 ["envcheck.py"; "/srv/app"] state0 in
      verdict o = Some Success
      /\ popens (trace (the_state o))
         = [(["/usr/bin/python3"; "/srv/app/main.py"], Some "/srv/app")])
  /\ verdict (main (Worlds.installed_app (Some [";"]))
                ["envcheck.py"; "/srv/app"] state0)
     = None
  /\ exists s,
       main (Worlds.installed_app (Some [";"])) ["envcheck.py"; "/srv/app"]
         state0
       = Raise IndexError s
       /\ popens (trace s) = []
       /\ printed (trace s) = [].
Proof.
  split; [vm_compute; reflexivity|].
  split; [split; vm_compute; reflexivity|].
  split; [split; vm_compute; reflexivity|].
  split; [vm_compute; reflexivity|].
  eexists. split; [vm_compute; reflexivity|]. split; reflexivity.
Qed.

(* ================================================================== *)
(** ** C8: the output contract *)
(* ================================================================== *)

(** C8 (the code departs from it): every exit of [main] goes through an
    emission point, with one line printed and the matching status, but not
    every end of [main] is an exit.  An exception that no [try] catches
    ends the process with nothing on standard output: the [IndexError] of
    the requirements line [;], and the [OSError] of an entry that cannot be
    examined in the directory given as argument. *)
Theorem escaping_exception_skips_emission :
  (forall w argv,
     match main w argv state0 with
     | Exit c s' =>
         (c = 0%Z /\ printed (trace s') = ["SUCCESS"])
         \/ (c = 1%Z /\ printed (trace s') = ["FAIL"])
     | Ret _ s' | Raise _ s' => printed (trace s') = []
     end)
  /\ (let o := main (Worlds.python_app [";"]) ["envcheck.py"; "app"] state0 in
      (exists s, o = Raise IndexError s)
      /\ stdout o = [] /\ exit_status o = Some 1%Z /\ ~ emitted o)
  /\ (let o := main Worlds.locked_dir ["envcheck.py"; "locked"] state0 in
      (exists s, o = Raise OSError s)
      /\ stdout o = [] /\ exit_status o = Some 1%Z /\ ~ emitted o).
Proof.
  split; [|split].
  - intros w argv. pose proof (main_prints_verdict w argv state0) as H.
    destruct (main w argv state0); exact H.
  - split; [eexists; vm_compute; reflexivity|].
    split; [vm_compute; reflexivity|]. split; [vm_compute; reflexivity|].
    intros [[H _] | [H _]]; vm_compute in H; discriminate H.
  - split; [eexists; vm_compute; reflexivity|].
    split; [vm_compute; reflexivity|]. split; [vm_compute; reflexivity|].
    intros [[H _] | [H _]]; vm_compute in H; discriminate H.
Qed.

(* ================================================================== *)
(** ** Further properties: the log and its file *)
(* ================================================================== *)

Lemma replace_char_absent : forall a b s,
  PyStr.any_char (Ascii.eqb a) s = false -> PyStr.replace_char a b s = s.
Proof.
  intros a b s; induction s as [|c r IH]; simpl; intros H; [reflexivity|].
  apply orb_false_iff in H as [Hc Hr]. rewrite (IH Hr).
  rewrite Ascii.eqb_sym, Hc. reflexivity.
Qed.

Lemma take_all : forall n s, String.length s <= n -> PyStr.take n s = s.
Proof.
  induction n as [|n IH]; intros [|c r] H; simpl in *; try reflexivity; [lia|].
  rewrite IH by lia. reflexivity.
Qed.

(** X1: A fact that is already trimmed, free of line feeds and at most 240
    characters long is stored exactly as it is given. *)
Theorem clean_keeps_wellformed_fact :
  forall (lines : Log.t) (line : string),
    PyStr.strip line = line ->
    PyStr.any_char (Ascii.eqb PyStr.LF) line = false ->
    String.length line <= 240 ->
    length lines < 10 ->
    Log.add lines line = lines ++ [line].
Proof.
  intros lines line Hs Hlf Hlen Hroom.
  destruct (add_cases lines line) as [[_ ->] | [Hfull _]];
    [|unfold LOG_MAX_LINES in Hfull; lia].
  unfold Log.clean. rewrite Hs, (replace_char_absent _ _ _ Hlf).
  now rewrite take_all.
Qed.

Lemma clean_keeps_wellformed_fact_witness :
  Log.add ["platform: linux_x86_64"] "input: not_found"
  = ["platform: linux_x86_64"; "input: not_found"].
Proof.
  apply (clean_keeps_wellformed_fact ["platform: linux_x86_64"]
           "input: not_found");
    [reflexivity | reflexivity | simpl; lia | simpl; lia].
Defined.

Lemma split_char_line : forall x r,
  PyStr.any_char (Ascii.eqb PyStr.LF) x = false ->
  PyStr.split_char PyStr.LF (x +++ String PyStr.LF r)
  = x :: PyStr.split_char PyStr.LF r.
Proof.
  induction x as [|c x IH]; intros r H;
    cbn [String.append PyStr.split_char].
  - now rewrite Ascii.eqb_refl.
  - cbn [PyStr.any_char] in H. apply orb_false_iff in H as [Hc Hx].
    rewrite Ascii.eqb_sym, Hc, (IH r Hx). reflexivity.
Qed.

Lemma str_app_assoc : forall a b c, (a +++ b) +++ c = a +++ (b +++ c).
Proof. induction a as [|x a IH]; intros b c; simpl; [|rewrite IH]; reflexivity. Qed.

Lemma file_text_lines : forall lines,
  Forall entry_ok lines ->
  PyStr.split_char PyStr.LF (Log.file_text lines) = lines ++ [EmptyString].
Proof.
  induction lines as [|x l IH]; intros H; [reflexivity|].
  inversion H as [|? ? [_ Hx] Hl]; subst. specialize (IH Hl).
  destruct l as [|y l'].
  - unfold Log.file_text, PyStr.join. simpl String.concat.
    now rewrite split_char_line.
  - assert (E : Log.file_text (x :: y :: l')
                = x +++ String PyStr.LF (Log.file_text (y :: l'))).
    { unfold Log.file_text, PyStr.join. cbn [String.concat].
      rewrite str_app_assoc. reflexivity. }
    rewrite E, split_char_line by exact Hx. rewrite IH. reflexivity.
Qed.

(** X2: The text written to the log file splits at its line feeds into exactly
    the entries of the log, followed by the empty piece after the last line
    feed: whatever facts were added, no entry is broken over two lines and
    none is merged with its neighbour. *)
Theorem log_file_splits_into_entries :
  forall facts : list string,
    let lines := add_all Log.init facts in
    PyStr.split_char PyStr.LF (Log.file_text lines) = lines ++ [EmptyString].
Proof.
  intros facts lines. apply file_text_lines.
  apply add_all_invariant; [simpl; unfold LOG_MAX_LINES; lia | constructor].
Qed.

(* ================================================================== *)
(** ** Further properties: quotes around the argument *)
(* ================================================================== *)

Lemma unquote_true_inv : forall s u,
  PyStr.strip s = s -> unquote_if_wrapped s = (u, true) -> wraps s u.
Proof.
  intros s u Hs H. unfold unquote_if_wrapped in H. rewrite Hs in H.
  destruct s as [|c0 r]; [discriminate|].
  destruct ((2 <=? String.length (String c0 r))
            && (Ascii.eqb c0 PyStr.SQUOTE || Ascii.eqb c0 PyStr.DQUOTE)
            && match PyStr.last_char (String c0 r) with
               | Some c => Ascii.eqb c c0
               | None => false
               end) eqn:E; [|discriminate].
  apply andb_true_iff in E as [E Hlast]. apply andb_true_iff in E as [Hlen Hq].
  apply Nat.leb_le in Hlen. apply is_quote_eqb in Hq.
  destruct r as [|c1 r']; [simpl in Hlen; lia|].
  destruct (PyStr.last_char (String c0 (String c1 r'))) as [c|] eqn:L;
    [|discriminate].
  apply Ascii.eqb_eq in Hlast. subst c.
  change (PyStr.last_char (String c0 (String c1 r')))
    with (PyStr.last_char (String c1 r')) in L.
  destruct (last_char_inv _ _ L) as [a Ha].
  injection H as H. rewrite Ha in H. cbn [String.length PyStr.drop] in H.
  assert (Hl : String.length r' - 0 = String.length a).
  { pose proof (f_equal String.length Ha) as E.
    rewrite str_length_app in E. cbn [String.length] in E. lia. }
  rewrite Hl, take_app in H. subst u.
  exists c0. split; [exact Hq|]. now rewrite Ha.
Qed.

Lemma unquote_via_strip : forall raw,
  unquote_if_wrapped raw
  = if snd (unquote_if_wrapped (PyStr.strip raw))
    then (fst (unquote_if_wrapped (PyStr.strip raw)), true)
    else (raw, false).
Proof.
  intros raw. unfold unquote_if_wrapped. rewrite strip_idem.
  destruct (PyStr.strip raw) as [|c0 r]; [reflexivity|].
  now destruct ((2 <=? String.length (String c0 r))
                && (Ascii.eqb c0 PyStr.SQUOTE || Ascii.eqb c0 PyStr.DQUOTE)
                && match PyStr.last_char (String c0 r) with
                   | Some c => Ascii.eqb c c0
                   | None => false
                   end).
Qed.

(** X3: [unquote_if_wrapped] has two answers only.  Either the trimmed argument
    is some [inner] between two copies of one quote character, and the
    answer is [inner], flagged; or it is not, and the answer is the
    argument exactly as it was given, untrimmed, unflagged.  A lone quote
    character, and text between two different quote characters, are not
    wrapped. *)
Theorem unquote_if_wrapped_cases :
  forall raw : string,
    (exists inner,
       wraps (PyStr.strip raw) inner
       /\ unquote_if_wrapped raw = (inner, true))
    \/ ((forall inner, ~ wraps (PyStr.strip raw) inner)
        /\ unquote_if_wrapped raw = (raw, false)).
Proof.
  intros raw. rewrite unquote_via_strip.
  pose proof (strip_idem raw) as Hs.
  destruct (unquote_if_wrapped (PyStr.strip raw)) as [u [|]] eqn:E; simpl.
  - left. exists u. split; [|reflexivity].
    now apply unquote_true_inv.
  - right. split; [|reflexivity]. intros inner W.
    rewrite (unquote_wrapped _ inner Hs W) in E. discriminate E.
Qed.

(** X4: A quoted argument whose content exists on disk is resolved to that
    content and handled as a path, whatever whitespace the content holds
    inside, provided the content has no whitespace at its ends and is not
    itself wrapped in quotes. *)
Theorem quoted_existing_path_is_path :
  forall (w : World) (raw inner : string),
    wraps (PyStr.strip raw) inner ->
    found_on_disk w inner = true ->
    PyStr.strip inner = inner ->
    (forall x, ~ wraps inner x) ->
    resolve_quoted w raw = inner
    /\ is_command_input w (resolve_quoted w raw) = false.
Proof.
  intros w raw inner W Hfound Hs Hno.
  assert (Hex : path_exists w (Path.of_str inner) = Ok true).
  { unfold found_on_disk in Hfound.
    now destruct (path_exists w (Path.of_str inner)) as [[|]|]. }
  assert (R : resolve_quoted w raw = inner).
  { unfold resolve_quoted.
    rewrite (unquote_wrapped _ inner (strip_idem raw) W). now rewrite Hex. }
  split; [exact R|]. rewrite R. unfold is_command_input. rewrite Hs.
  rewrite (unquote_not_wrapped inner Hs Hno).
  destruct (PyStr.any_space inner); [now rewrite Hex | reflexivity].
Qed.

Lemma quoted_existing_path_is_path_witness :
  resolve_quoted world_spaced_dir " 'my dir' " = "my dir"
  /\ is_command_input world_spaced_dir
       (resolve_quoted world_spaced_dir " 'my dir' ") = false.
Proof.
  apply (quoted_existing_path_is_path world_spaced_dir " 'my dir' " "my dir").
  - exists PyStr.SQUOTE. split; [left; reflexivity | vm_compute; reflexivity].
  - vm_compute; reflexivity.
  - vm_compute; reflexivity.
  - intros x (q & [Hq | Hq] & E); subst q; discriminate E.
Defined.

(* ================================================================== *)
(** ** Further properties: the argument count *)
(* ================================================================== *)

(** X5: With any number of arguments other than one, [main] records the single
    fact [arg: missing_or_extra], writes the log, prints FAIL and exits
    with status 1, before anything is classified or spawned. *)
Theorem main_rejects_argument_count :
  forall (w : World) (argv : list string),
    length argv <> 2 ->
    main w argv state0
    = Exit 1%Z
        {| log := ["arg: missing_or_extra"];
           trace :=
             (if log_writable w
              then [WriteLog (Log.file_text ["arg: missing_or_extra"])]
              else [])
             ++ [Print "FAIL"] |}.
Proof.
  intros w argv H.
  assert (E : main w argv = (log_add "arg: missing_or_extra" ;;; fail w)).
  { destruct argv as [|a [|b [|c r]]]; try reflexivity.
    simpl in H. congruence. }
  rewrite E. unfold bind, log_add, fail, log_write, emit, sys_exit, state0.
  now destruct (log_writable w).
Qed.

Lemma main_rejects_argument_count_witness :
  main Worlds.bare ["envcheck.py"; "a"; "b"] state0
  = Exit 1%Z
      {| log := ["arg: missing_or_extra"];
         trace := [WriteLog (Log.file_text ["arg: missing_or_extra"]);
                   Print "FAIL"] |}.
Proof.
  apply (main_rejects_argument_count Worlds.bare ["envcheck.py"; "a"; "b"]).
  simpl. lia.
Defined.

(* ================================================================== *)
(** ** Further properties: the runtime of a command *)
(* ================================================================== *)

Lemma split_char_nonempty : forall sep s, PyStr.split_char sep s <> [].
Proof.
  intros sep s; destruct s as [|c r]; simpl; [discriminate|].
  destruct (Ascii.eqb c sep); [discriminate|].
  destruct (PyStr.split_char sep r); discriminate.
Qed.

Lemma split_char_app_sep : forall sep a b,
  PyStr.split_char sep (a +++ String sep b)
  = PyStr.split_char sep a ++ PyStr.split_char sep b.
Proof.
  intros sep a b; induction a as [|c a IH];
    cbn [String.append PyStr.split_char].
  - now rewrite Ascii.eqb_refl.
  - destruct (Ascii.eqb c sep); rewrite IH; [reflexivity|].
    pose proof (split_char_nonempty sep a) as N.
    destruct (PyStr.split_char sep a) as [|x xs]; [congruence | reflexivity].
Qed.

Lemma split_char_absent : forall sep s,
  PyStr.any_char (Ascii.eqb sep) s = false -> PyStr.split_char sep s = [s].
Proof.
  intros sep s; induction s as [|c r IH]; intros H; [reflexivity|].
  cbn [PyStr.any_char] in H. apply orb_false_iff in H as [Hc Hr].
  cbn [PyStr.split_char]. rewrite Ascii.eqb_sym, Hc, (IH Hr). reflexivity.
Qed.

(** The last component of [dir/name] is [name]. *)
Lemma name_of_joined : forall dir name,
  PyStr.any_char (Ascii.eqb "/"%char) name = false ->
  Path.keep_part name = true ->
  Path.name (Path.of_str (dir +++ String "/"%char name)) = name
  /\ Path.name (Path.of_str name) = name.
Proof.
  intros dir name Hslash Hkeep. unfold Path.name, Path.of_str. simpl Path.parts.
  rewrite split_char_app_sep, (split_char_absent _ _ Hslash), filter_app.
  simpl filter. rewrite Hkeep. split; [apply last_last | reflexivity].
Qed.

(** X6: The runtime of a command is read off the last path component of its
    first word alone: neither the directory the executable is named in nor
    any argument changes it, and a non-empty command always gets an
    answer. *)
Theorem guess_runtime_from_command_basename :
  forall (dir name : string) (args : list string),
    PyStr.any_char (Ascii.eqb "/"%char) name = false ->
    name <> EmptyString ->
    name <> "."%string ->
    guess_runtime_from_command ((dir +++ String "/"%char name) :: args)
    = guess_runtime_from_command [name]
    /\ exists rt, guess_runtime_from_command [name] = Ok rt.
Proof.
  intros dir name args Hslash Hne Hdot.
  assert (Hkeep : Path.keep_part name = true).
  { unfold Path.keep_part. destruct name as [|c r]; [congruence|].
    cbn [PyStr.is_empty negb andb].
    destruct (String.eqb_spec (String c r) "."); [congruence | reflexivity]. }
  destruct (name_of_joined dir name Hslash Hkeep) as [H1 H2].
  unfold guess_runtime_from_command. rewrite H1, H2. split; [reflexivity|].
  repeat match goal with
         | |- context [if ?b then _ else _] => destruct b
         end; eexists; reflexivity.
Qed.

Lemma guess_runtime_from_command_basename_witness :
  guess_runtime_from_command ["/opt/tools/Python3"; "-m"; "http.server"]
  = guess_runtime_from_command ["Python3"]
  /\ exists rt, guess_runtime_from_command ["Python3"] = Ok rt.
Proof.
  apply (guess_runtime_from_command_basename "/opt/tools" "Python3"
           ["-m"; "http.server"]);
    [reflexivity | discriminate | discriminate].
Defined.

(* ================================================================== *)
(** ** Further properties: the runtime of a file *)
(* ================================================================== *)

(** The guess always returns: the table of extensions first, then the
    first line of the file. *)
Lemma guess_runtime_from_file_returns : forall w f s,
  exists rt s',
    guess_runtime_from_file w f s = Ret rt s'
    /\ trace s' = trace s
    /\ (s' = s \/ exists fact, log s' = Log.add (log s) fact)
    /\ (PyStr.lower (Path.suffix f) = ".py" -> rt = RPython /\ s' = s)
    /\ (PyStr.lower (Path.suffix f) = ".js" -> rt = RNode /\ s' = s)
    /\ (PyStr.lower (Path.suffix f) = ".sh" -> rt = RBash)
    /\ (PyStr.lower (Path.suffix f) = ".go" -> rt = RGo /\ s' = s)
    /\ (rt = RUnknown -> log s' = Log.add (log s) "runtime: unknown").
Proof.
  intros w f s. unfold guess_runtime_from_file.
  destruct (String.eqb_spec (PyStr.lower (Path.suffix f)) ".py") as [E1|N1].
  { exists RPython, s. rewrite E1. repeat split; auto; try discriminate. }
  destruct (String.eqb_spec (PyStr.lower (Path.suffix f)) ".js") as [E2|N2].
  { exists RNode, s. rewrite E2. repeat split; auto; try discriminate. }
  destruct (String.eqb_spec (PyStr.lower (Path.suffix f)) ".sh") as [E3|N3].
  { rewrite E3. unfold bind, try_except, lift, log_add, ret, raise.
    destruct (access_x w (Path.str f)) as [[|]|e]; simpl;
      eexists; eexists; (split; [reflexivity|]); simpl;
      repeat split; try discriminate; try reflexivity;
      right; eexists; reflexivity. }
  destruct (String.eqb_spec (PyStr.lower (Path.suffix f)) ".go") as [E4|N4].
  { exists RGo, s. rewrite E4. repeat split; auto; try discriminate. }
  cbv zeta. unfold bind, log_add, ret.
  repeat match goal with
         | |- context [if ?b then _ else _] => destruct b
         end;
    eexists; eexists; (split; [reflexivity|]); simpl;
    repeat split; try congruence; try discriminate; auto;
    right; eexists; reflexivity.
Qed.

(** X7: A file whose extension is not in the table and whose first line cannot
    be read, or does not start with [#!], has no runtime: the answer is
    unknown, with the fact [runtime: unknown] logged; in no case does the
    guess raise or touch anything outside the log. *)
Theorem guess_runtime_from_file_without_shebang :
  forall (w : World) (f : Path.t) (s : state),
    let ext := PyStr.lower (Path.suffix f) in
    ext <> ".py" -> ext <> ".js" -> ext <> ".sh" -> ext <> ".go" ->
    (forall line, read_first_line w (Path.str f) = Ok line ->
                  PyStr.startswith "#!" (PyStr.strip line) = false) ->
    guess_runtime_from_file w f s
    = Ret RUnknown {| log := Log.add (log s) "runtime: unknown";
                      trace := trace s |}.
Proof.
  intros w f s ext N1 N2 N3 N4 Hline. unfold guess_runtime_from_file. fold ext.
  destruct (String.eqb_spec ext ".py"); [congruence|].
  destruct (String.eqb_spec ext ".js"); [congruence|].
  destruct (String.eqb_spec ext ".sh"); [congruence|].
  destruct (String.eqb_spec ext ".go"); [congruence|].
  cbv zeta.
  destruct (read_first_line w (Path.str f)) as [line|e].
  - rewrite (Hline line eq_refl). reflexivity.
  - reflexivity.
Qed.

Lemma guess_runtime_from_file_without_shebang_witness :
  guess_runtime_from_file Worlds.bare (Path.of_str "notes.txt") state0
  = Ret RUnknown {| log := ["runtime: unknown"]; trace := [] |}.
Proof.
  apply (guess_runtime_from_file_without_shebang Worlds.bare
           (Path.of_str "notes.txt") state0);
    vm_compute; discriminate.
Defined.

(* ================================================================== *)
(** ** Further properties: resolving a path *)
(* ================================================================== *)

(** X8: An argument handled as a path that names a regular file resolves to a
    file target whose entry point is the file itself and whose project type
    is app; the runtime follows the table of extensions (.py python, .js
    node, .sh bash, .go go, compared in lower case); nothing is spawned. *)
Theorem parse_target_regular_file :
  forall (w : World) (raw : string) (s : state),
    let p := Path.of_str (resolve_quoted w raw) in
    let ext := PyStr.lower (Path.suffix p) in
    is_command_input w (resolve_quoted w raw) = false ->
    stat w (Path.str p) = StatOk RegularFile ->
    exists rt s',
      parse_target w raw s
      = Ret (mkTarget KFile (Some p) None (Some p) (Some rt) App) s'
      /\ trace s' = trace s
      /\ (ext = ".py" -> rt = RPython)
      /\ (ext = ".js" -> rt = RNode)
      /\ (ext = ".sh" -> rt = RBash)
      /\ (ext = ".go" -> rt = RGo).
Proof.
  intros w raw s p ext Hpath Hstat. unfold parse_target. rewrite Hpath.
  fold p. unfold bind at 1. unfold is_file. rewrite Hstat.
  cbn [lift ret]. unfold bind at 1. cbn [log_add].
  set (s1 := {| log := Log.add (log s) ("input: file=" +++ Path.str p);
                trace := trace s |}).
  destruct (guess_runtime_from_file_returns w p s1)
    as (rt & s' & E & Ht & _ & H1 & H2 & H3 & H4 & _).
  exists rt, s'. unfold bind. rewrite E. split; [reflexivity|].
  split; [exact Ht|]. fold ext in H1, H2, H3, H4.
  repeat split; intros X; [apply H1 | apply H2 | apply H3 | apply H4]; exact X.
Qed.

Lemma parse_target_regular_file_witness :
  exists rt s',
    parse_target (Worlds.python_app []) "app/main.py" state0
    = Ret (mkTarget KFile (Some (Path.of_str "app/main.py")) None
             (Some (Path.of_str "app/main.py")) (Some rt) App) s'
    /\ trace s' = []
    /\ rt = RPython.
Proof.
  destruct (parse_target_regular_file (Worlds.python_app []) "app/main.py"
              state0) as (rt & s' & E & Ht & H1 & _);
    [vm_compute; reflexivity | vm_compute; reflexivity |].
  exists rt, s'. split; [exact E|]. split; [exact Ht|].
  apply H1. vm_compute. reflexivity.
Defined.

(** X9: An argument handled as a path that names nothing on disk resolves to
    the degenerate file target, without entry point and with runtime
    unknown, and the invocation prints FAIL with status 1 without spawning
    anything. *)
Theorem main_fails_on_missing_path :
  forall (w : World) (prog raw : string),
    let p := Path.of_str (resolve_quoted w raw) in
    is_command_input w (resolve_quoted w raw) = false ->
    stat w (Path.str p) = StatAbsent ->
    (forall s, exists s',
       parse_target w raw s
       = Ret (mkTarget KFile (Some p) None None (Some RUnknown) UnknownType) s')
    /\ exists s',
         main w [prog; raw] state0 = Exit 1%Z s'
         /\ printed (trace s') = ["FAIL"]
         /\ subprocesses (trace s') = [].
Proof.
  intros w prog raw p Hpath Hstat.
  assert (P : forall s, exists s',
            parse_target w raw s
            = Ret (mkTarget KFile (Some p) None None (Some RUnknown)
                     UnknownType) s'
            /\ trace s' = trace s).
  { intros s. unfold parse_target. rewrite Hpath. fold p.
    unfold bind, is_file, is_dir, lift, log_add, ret. rewrite Hstat.
    eexists. split; reflexivity. }
  split.
  - intros s. destruct (P s) as (s' & E & _). now exists s'.
  - destruct (platform_fact_returns w state0) as (s1 & Hp & Ht1).
    destruct (P s1) as (s2 & E & Ht2).
    destruct (pipeline_unknown_runtime w
                (mkTarget KFile (Some p) None None (Some RUnknown) UnknownType)
                s2 eq_refl) as (s3 & E3 & P1 & P2 & _).
    exists s3. unfold main.
    rewrite (bind_ret_eq _ _ _ _ _ _ _ Hp), (bind_ret_eq _ _ _ _ _ _ _ E).
    split; [exact E3|]. rewrite P1, P2, Ht2, Ht1. now split.
Qed.

Lemma main_fails_on_missing_path_witness :
  exists s',
    main Worlds.bare ["envcheck.py"; "nothing.py"] state0 = Exit 1%Z s'
    /\ printed (trace s') = ["FAIL"]
    /\ subprocesses (trace s') = [].
Proof.
  apply (main_fails_on_missing_path Worlds.bare "envcheck.py" "nothing.py");
    vm_compute; reflexivity.
Defined.

(* ================================================================== *)
(** ** Further properties: a runtime that is not installed *)
(* ================================================================== *)

(** X10: When the runtime of the target is known and no executable is found for
    it, the pipeline records [runtime: missing], prints FAIL and exits with
    status 1; it spawns nothing, not even the version probe. *)
Theorem pipeline_fails_on_missing_runtime :
  forall (w : World) (t : Target) (s : state),
    runtime_or_unknown t <> RUnknown ->
    which_runtime w (runtime_or_unknown t) = None ->
    exists s',
      pipeline w t s = Exit 1%Z s'
      /\ log s' = Log.add (log s) "runtime: missing"
      /\ printed (trace s') = printed (trace s) ++ ["FAIL"]
      /\ subprocesses (trace s') = subprocesses (trace s).
Proof.
  intros w t s Hrt Hwhich. unfold pipeline. rewrite Hwhich.
  assert (E : forall A (m : M A),
            (log_add "runtime: missing" ;;; m) s
            = m {| log := Log.add (log s) "runtime: missing";
                   trace := trace s |}) by reflexivity.
  assert (F : exists s',
            (log_add "runtime: missing" ;;; @fail w unit) s = Exit 1%Z s'
            /\ log s' = Log.add (log s) "runtime: missing"
            /\ printed (trace s') = printed (trace s) ++ ["FAIL"]
            /\ subprocesses (trace s') = subprocesses (trace s)).
  { rewrite E. unfold fail, log_write, bind, emit, sys_exit.
    destruct (log_writable w); simpl; eexists; (split; [reflexivity|]);
      simpl; rewrite ?printed_app, ?subprocesses_app; simpl;
      rewrite ?app_nil_r; now repeat split. }
  destruct (runtime_or_unknown t); try congruence; exact F.
Qed.

Lemma pipeline_fails_on_missing_runtime_witness :
  exists s',
    pipeline Worlds.bare
      (mkTarget KFile (Some (Path.of_str "a.py")) None
         (Some (Path.of_str "a.py")) (Some RPython) App) state0
    = Exit 1%Z s'
    /\ log s' = ["runtime: missing"]
    /\ printed (trace s') = ["FAIL"]
    /\ subprocesses (trace s') = [].
Proof.
  apply (pipeline_fails_on_missing_runtime Worlds.bare
           (mkTarget KFile (Some (Path.of_str "a.py")) None
              (Some (Path.of_str "a.py")) (Some RPython) App) state0);
    [discriminate | reflexivity].
Defined.

(* ================================================================== *)
(** ** Further properties: the version probe *)
(* ================================================================== *)

Lemma linebreak_is_space : forall c,
  PyStr.is_linebreak c = true -> PyStr.isspace c = true.
Proof.
  intros [[] [] [] [] [] [] [] []]; vm_compute; intros H;
    first [reflexivity | discriminate H].
Qed.

Lemma strip_head : forall s,
  PyStr.strip s = EmptyString
  \/ exists c r, PyStr.strip s = String c r /\ PyStr.isspace c = false.
Proof.
  intros s. unfold PyStr.strip.
  destruct (lstrip_head s) as [-> | (c & r & -> & Hc)]; [now left|].
  right. exists c, (PyStr.rstrip r). simpl. now rewrite Hc.
Qed.

Lemma first_line_no_break : forall s,
  PyStr.any_char PyStr.is_linebreak (PyStr.first_line s) = false.
Proof.
  induction s as [|c r IH]; simpl; [reflexivity|].
  destruct (PyStr.is_linebreak c) eqn:E; simpl; [reflexivity|].
  now rewrite E, IH.
Qed.

(** X11: The version probe never raises, whatever [subprocess.run] does.  It
    calls the executable once, with [--version], and adds one fact: that
    the probe failed, that nothing was reported, or the version reported, a
    single non-empty line of at most 120 characters. *)
Theorem get_runtime_version_records_one_line :
  forall (w : World) (exe : string) (rt : Runtime) (s : state),
    exists fact,
      get_runtime_version w exe rt s
      = Ret tt {| log := Log.add (log s) fact;
                  trace := trace s ++ [SubprocessRun [exe; "--version"]] |}
      /\ (fact = "runtime_version: error"
          \/ fact = "runtime_version: unknown"
          \/ exists v,
               fact = "runtime_version: " +++ v
               /\ 1 <= String.length v <= 120
               /\ PyStr.any_char PyStr.is_linebreak v = false).
Proof.
  intros w exe rt s.
  unfold get_runtime_version, try_except, bind, emit, log_add, raise.
  destruct (subprocess_run w [exe; "--version"]) as [out err| |];
    cbv beta iota;
    try (eexists; split; [reflexivity | now left]).
  set (o := PyStr.strip (if PyStr.is_empty out then err else out)).
  destruct (strip_head (if PyStr.is_empty out then err else out))
    as [E | (c & r & E & Hc)]; fold o in E; rewrite E.
  - eexists. split; [reflexivity | right; now left].
  - cbn [PyStr.is_empty].
    exists ("runtime_version: "
            +++ PyStr.take 120 (PyStr.first_line (String c r))).
    split; [reflexivity|]. right. right.
    exists (PyStr.take 120 (PyStr.first_line (String c r))).
    split; [reflexivity|].
    assert (Hb : PyStr.is_linebreak c = false).
    { destruct (PyStr.is_linebreak c) eqn:B; [|reflexivity].
      apply linebreak_is_space in B. congruence. }
    split.
    + split; [|apply take_length].
      cbn [PyStr.first_line]. rewrite Hb. cbn [PyStr.take String.length]. lia.
    + apply take_any_char, first_line_no_break.
Qed.

(* ================================================================== *)
(** ** Further properties: the run attempt and its process *)
(* ================================================================== *)

(** X12: A run attempt makes one [Popen] call and adds one fact.  It asks the
    process to terminate exactly when the process was spawned and had not
    exited (the timeout expired, or the wait failed), never after a normal
    exit or a failed spawn; and a [terminate] that raises changes neither
    the answer nor the fact. *)
Theorem run_attempt_terminates_what_still_runs :
  forall (w : World) (cmd : list string) (cwd : option Path.t) (s : state),
    exists ok fact,
      run_attempt w cmd cwd s
      = Ret ok
          {| log := Log.add (log s) fact;
             trace :=
               trace s
               ++ Popen cmd (option_map Path.str cwd)
                  :: match spawn_of w cmd cwd with
                     | Spawned StillRunning _ | Spawned WaitError _ =>
                         [Terminate cmd]
                     | _ => []
                     end |}
      /\ fact = match spawn_of w cmd cwd with
                | SpawnNotFound => "run: not_found"
                | SpawnError => "run: spawn_error"
                | Spawned (Exited code) _ =>
                    "run: exit_code=" +++ PyStr.of_Z code
                | Spawned StillRunning _ => "run: timeout_running"
                | Spawned WaitError _ => "run: wait_error"
                end.
Proof.
  intros w cmd cwd s. unfold run_attempt, spawn_of, terminate.
  destruct (subprocess_popen w cmd (option_map Path.str cwd))
    as [| |[code| |] [|]];
    unfold bind, emit, log_add, try_except, raise, ret; simpl;
    rewrite <- ?app_assoc; simpl;
    eexists; eexists; split; reflexivity.
Qed.

(* ================================================================== *)
(** ** Further properties: the command line that is built *)
(* ================================================================== *)

Lemma build_run_command_quiet : forall w t exe,
  keeps same_trace (build_run_command w t exe).
Proof. intros w t exe. quiet keeps_build_run_command. Qed.

(** X13: Whenever a command line is built, it is not empty and the log is left
    alone.  For a command target it is the target's own token list.  For a
    file or directory target the entry point is a regular file, an
    executable was found for the runtime, and the line is that executable
    followed by the entry point, with [run] between the two for go. *)
Theorem build_run_command_shape :
  forall (w : World) (t : Target) (exe : option string) (s s' : state)
         (cmd : list string),
    build_run_command w t exe s = Ret (Some cmd) s' ->
    s' = s
    /\ cmd <> []
    /\ (kind t = KCommand -> command t = Some cmd)
    /\ (kind t <> KCommand ->
        exists ep e,
          entrypoint t = Some ep
          /\ exe = Some e /\ e <> EmptyString
          /\ stat w (Path.str ep) = StatOk RegularFile
          /\ ((runtime_or_unknown t = RGo /\ cmd = [e; "run"; Path.str ep])
              \/ (runtime_or_unknown t <> RGo /\ cmd = [e; Path.str ep]))).
Proof.
  intros w t exe s s' cmd H. unfold build_run_command in H.
  assert (Files : forall k, k <> KCommand -> kind t = k ->
    match entrypoint t with
    | None => log_add "run: not_applicable" ;;; ret None
    | Some ep =>
        ok <- check_entrypoint_exists w t ;;
        if negb ok then ret None
        else
          match runtime_or_unknown t with
          | RPython | RNode | RBash =>
              match exe with
              | Some (String _ _ as e) => ret (Some [e; Path.str ep])
              | _ => log_add "runtime: missing" ;;; ret None
              end
          | RGo =>
              match exe with
              | Some (String _ _ as e) => ret (Some [e; "run"; Path.str ep])
              | _ => log_add "runtime: missing" ;;; ret None
              end
          | RUnknown => log_add "runtime: unknown" ;;; ret None
          end
    end s = Ret (Some cmd) s' ->
    s' = s /\ cmd <> []
    /\ exists ep e,
         entrypoint t = Some ep
         /\ exe = Some e /\ e <> EmptyString
         /\ stat w (Path.str ep) = StatOk RegularFile
         /\ ((runtime_or_unknown t = RGo /\ cmd = [e; "run"; Path.str ep])
             \/ (runtime_or_unknown t <> RGo /\ cmd = [e; Path.str ep]))).
  { intros k _ _ G. unfold check_entrypoint_exists in G.
    destruct (entrypoint t) as [ep|] eqn:Eep; [|discriminate G].
    unfold bind, lift, path_exists, is_file, log_add, ret, raise in G.
    destruct (stat w (Path.str ep)) as [[| |]| |] eqn:St; simpl in G;
      try discriminate G;
      destruct (runtime_or_unknown t) eqn:Ert; try discriminate G;
      destruct exe as [[|c r]|]; try discriminate G;
      injection G as <- <-;
      (split; [reflexivity|]); (split; [discriminate|]);
      exists ep, (String c r);
      (split; [reflexivity|]); (split; [reflexivity|]);
      (split; [discriminate|]); (split; [exact St|]);
      first [left; split; reflexivity
            | right; split; [discriminate | reflexivity]]. }
  destruct (kind t) eqn:Ek.
  - destruct (Files KFile) as (A & B & C); auto; try discriminate.
    repeat split; auto; try discriminate.
  - destruct (Files KDir) as (A & B & C); auto; try discriminate.
    repeat split; auto; try discriminate.
  - destruct (command t) as [[|c cs]|]; try discriminate H.
    injection H as <- <-. repeat split; auto; try discriminate.
    intros N. congruence.
Qed.

Lemma build_run_command_shape_witness :
  let t := mkTarget KDir (Some (Path.of_str "app")) None
             (Some (Path.of_str "app/main.py")) (Some RPython) App in
  let cmd := ["/usr/bin/python3"; "app/main.py"] in
  cmd <> []
  /\ exists ep e,
       entrypoint t = Some ep
       /\ Some "/usr/bin/python3" = Some e /\ e <> EmptyString
       /\ stat (Worlds.python_app []) (Path.str ep) = StatOk RegularFile
       /\ ((runtime_or_unknown t = RGo /\ cmd = [e; "run"; Path.str ep])
           \/ (runtime_or_unknown t <> RGo /\ cmd = [e; Path.str ep])).
Proof.
  intros t cmd.
  destruct (build_run_command_shape (Worlds.python_app []) t
              (Some "/usr/bin/python3") state0 state0 cmd)
    as (_ & H1 & _ & H2); [vm_compute; reflexivity|].
  split; [exact H1|]. apply H2. discriminate.
Defined.

(* ================================================================== *)
(** ** Further properties: the project facts *)
(* ================================================================== *)

Section NoAccessErrors.

Variable w : World.
Hypothesis stat_answers : forall p, stat w p <> StatError.

Lemma path_exists_answers : forall p, exists b, path_exists w p = Ok b.
Proof.
  intros p. unfold path_exists. pose proof (stat_answers (Path.str p)) as H.
  destruct (stat w (Path.str p)); [now exists true | now exists false
                                  | congruence].
Qed.

Lemma exists_and_is_dir_answers : forall p,
  exists b, exists_and_is_dir w p = Ok b.
Proof.
  intros p. unfold exists_and_is_dir, path_exists, is_dir.
  pose proof (stat_answers (Path.str p)) as H.
  destruct (stat w (Path.str p)) as [[| |]| |]; try congruence;
    eexists; reflexivity.
Qed.

Lemma present_returns : forall p,
  exists v, (v = "present" \/ v = "absent")
            /\ forall s, present w p s = Ret v s.
Proof.
  intros p. unfold present, bind, lift, ret, raise.
  destruct (path_exists_answers p) as [[|] ->];
    eexists; (split; [|intros s; reflexivity]); auto.
Qed.

Lemma any_venv_returns : forall base names,
  exists b, forall s, any_venv w base names s = Ret b s.
Proof.
  intros base names; induction names as [|n rest [b IH]]; simpl.
  - now exists false.
  - unfold bind, lift, ret, raise.
    destruct (exists_and_is_dir_answers (Path.div base n)) as [[|] ->].
    + now exists true.
    + exists b. exact IH.
Qed.

Lemma any_exists_returns : forall ps,
  exists b, forall s, any_exists w ps s = Ret b s.
Proof.
  intros ps; induction ps as [|p rest [b IH]]; simpl.
  - now exists false.
  - unfold bind, lift, ret, raise.
    destruct (path_exists_answers p) as [[|] ->].
    + now exists true.
    + exists b. exact IH.
Qed.

End NoAccessErrors.

(** The number of facts the collector records for a runtime. *)
Lemma detect_project_facts_returns : forall w t s,
  (forall p, stat w p <> StatError) ->
  exists facts,
    detect_project_facts w t s
    = Ret tt {| log := add_all (log s) facts; trace := trace s |}
    /\ (base_of t = None -> facts = [])
    /\ (base_of t <> None ->
        length facts
        = (match project_type t with UnknownType => 0 | _ => 1 end)
          + (match runtime_or_unknown t with
             | RPython | RNode => 3
             | RGo => 1
             | _ => 0
             end)).
Proof.
  intros w t s Hstat. unfold detect_project_facts.
  destruct (base_of t) as [base|] eqn:Eb.
  2:{ exists []. destruct s. repeat split; auto. congruence. }
  destruct (any_venv_returns w Hstat base [".venv"; "venv"; "env"]) as [venv Hv].
  assert (Step : forall (pre : list string) s0,
    log s0 = add_all (log s) pre -> trace s0 = trace s ->
    exists more,
      (venv_present <- any_venv w base [".venv"; "venv"; "env"] ;;
       match runtime_or_unknown t with
       | RPython =>
           a <- present w (Path.div base "pyproject.toml") ;;
           log_add ("pyproject: " +++ a) ;;;
           b <- present w (Path.div base "requirements.txt") ;;
           log_add ("requirements_txt: " +++ b) ;;;
           log_add ("venv: "
                    +++ (if venv_present : bool then "present" else "absent"))
       | RNode =>
           a <- present w (Path.div base "package.json") ;;
           log_add ("package_json: " +++ a) ;;;
           any_lock <- any_exists w
                         [Path.div base "package-lock.json";
                          Path.div base "yarn.lock";
                          Path.div base "pnpm-lock.yaml"] ;;
           log_add ("lockfile: "
                    +++ (if any_lock : bool then "present" else "absent")) ;;;
           c <- present w (Path.div base "node_modules") ;;
           log_add ("node_modules: " +++ c)
       | RGo =>
           a <- present w (Path.div base "go.mod") ;;
           log_add ("go_mod: " +++ a)
       | _ => ret tt
       end) s0
      = Ret tt {| log := add_all (log s) (pre ++ more); trace := trace s |}
      /\ length more = match runtime_or_unknown t with
                       | RPython | RNode => 3
                       | RGo => 1
                       | _ => 0
                       end).
  { intros pre s0 Hl Ht. rewrite (bind_ret_eq _ _ _ _ _ _ _ (Hv s0)).
    unfold add_all. destruct (runtime_or_unknown t).
    - destruct (present_returns w Hstat (Path.div base "pyproject.toml"))
        as (a & _ & Ha).
      destruct (present_returns w Hstat (Path.div base "requirements.txt"))
        as (b & _ & Hb).
      exists ["pyproject: " +++ a; "requirements_txt: " +++ b;
              "venv: " +++ (if venv then "present" else "absent")].
      split; [|reflexivity].
      rewrite (bind_ret_eq _ _ _ _ _ _ _ (Ha s0)).
      unfold bind at 1. cbn [log_add]. rewrite (bind_ret_eq _ _ _ _ _ _ _ (Hb _)).
      unfold bind, log_add. cbn [log trace]. rewrite fold_left_app, Hl, Ht.
      reflexivity.
    - destruct (present_returns w Hstat (Path.div base "package.json"))
        as (a & _ & Ha).
      destruct (any_exists_returns w Hstat
                  [Path.div base "package-lock.json";
                   Path.div base "yarn.lock";
                   Path.div base "pnpm-lock.yaml"]) as (lk & Hlk).
      destruct (present_returns w Hstat (Path.div base "node_modules"))
        as (c & _ & Hc).
      exists ["package_json: " +++ a;
              "lockfile: " +++ (if lk then "present" else "absent");
              "node_modules: " +++ c].
      split; [|reflexivity].
      rewrite (bind_ret_eq _ _ _ _ _ _ _ (Ha s0)).
      unfold bind at 1. cbn [log_add]. rewrite (bind_ret_eq _ _ _ _ _ _ _ (Hlk _)).
      unfold bind at 1. cbn [log_add]. rewrite (bind_ret_eq _ _ _ _ _ _ _ (Hc _)).
      unfold log_add. cbn [log trace]. rewrite fold_left_app, Hl, Ht.
      reflexivity.
    - exists []. split; [|reflexivity]. unfold ret.
      rewrite app_nil_r. destruct s0. simpl in *. now subst.
    - destruct (present_returns w Hstat (Path.div base "go.mod"))
        as (a & _ & Ha).
      exists ["go_mod: " +++ a]. split; [|reflexivity].
      rewrite (bind_ret_eq _ _ _ _ _ _ _ (Ha s0)).
      unfold log_add. cbn [log trace]. rewrite fold_left_app, Hl, Ht.
      reflexivity.
    - exists []. split; [|reflexivity]. unfold ret.
      rewrite app_nil_r. destruct s0. simpl in *. now subst. }
  destruct (project_type t) eqn:Ept.
  - destruct (Step ["project_type: app"]
                {| log := Log.add (log s) "project_type: app";
                   trace := trace s |} eq_refl eq_refl) as (more & E & L).
    exists ("project_type: app" :: more). split; [exact E|].
    split; [congruence|]. intros _. simpl. now rewrite L.
  - destruct (Step ["project_type: library"]
                {| log := Log.add (log s) "project_type: library";
                   trace := trace s |} eq_refl eq_refl) as (more & E & L).
    exists ("project_type: library" :: more). split; [exact E|].
    split; [congruence|]. intros _. simpl. now rewrite L.
  - destruct (Step [] s eq_refl eq_refl) as (more & E & L).
    exists more. split; [exact E|]. split; [congruence|]. intros _. exact L.
Qed.

(** X14: On a file system that answers every existence check, the fact
    collector always returns and acts on the log alone.  A target without a
    directory to look into gets no fact; otherwise the project type, when
    known, is recorded, followed by three facts for python and for node,
    one for go and none for any other runtime: four facts at most. *)
Theorem detect_project_facts_adds_at_most_four :
  forall (w : World) (t : Target) (s : state),
    (forall p, stat w p <> StatError) ->
    exists facts,
      detect_project_facts w t s
      = Ret tt {| log := add_all (log s) facts; trace := trace s |}
      /\ length facts <= 4
      /\ (base_of t = None -> facts = [])
      /\ (base_of t <> None ->
          length facts
          = (match project_type t with UnknownType => 0 | _ => 1 end)
            + (match runtime_or_unknown t with
               | RPython | RNode => 3
               | RGo => 1
               | _ => 0
               end)).
Proof.
  intros w t s Hstat.
  destruct (detect_project_facts_returns w t s Hstat) as (facts & E & H0 & H1).
  exists facts. split; [exact E|]. split; [|now split].
  destruct (base_of t) as [b|] eqn:Eb.
  - rewrite H1 by discriminate.
    destruct (project_type t), (runtime_or_unknown t); simpl; lia.
  - rewrite H0 by reflexivity. simpl. lia.
Qed.

Lemma detect_project_facts_adds_at_most_four_witness :
  exists facts,
    detect_project_facts Worlds.node_library node_library_target state0
    = Ret tt {| log := add_all (log state0) facts; trace := trace state0 |}
    /\ length facts <= 4.
Proof.
  destruct (detect_project_facts_adds_at_most_four Worlds.node_library
              node_library_target state0) as (facts & E & L & _).
  - intros p. unfold Worlds.node_library, Worlds.make, stat.
    cbn [Worlds.lookup].
    repeat match goal with
           | |- context [if ?b then _ else _] => destruct b
           end; discriminate.
  - exists facts. now split.
Defined.

(* ================================================================== *)
(** ** Further properties: one attempt, no retry *)
(* ================================================================== *)

Lemma adds_spawns_same : forall s s',
  trace s' = trace s -> adds_spawns s s' [] [].
Proof. intros s s' H. unfold adds_spawns. rewrite H, !app_nil_r. now split. Qed.

Lemma fail_adds_nothing : forall w s,
  adds_spawns s (the_state (@fail w unit s)) [] [].
Proof.
  intros w s. destruct (fail_exits w unit s) as (s' & E & _ & P2 & P3).
  rewrite E. unfold adds_spawns. simpl. rewrite P2, P3, !app_nil_r. now split.
Qed.

Lemma success_adds_nothing : forall w s,
  adds_spawns s (the_state (@success w unit s)) [] [].
Proof.
  intros w s. destruct (success_exits w unit s) as (s' & E & _ & P2 & P3).
  rewrite E. unfold adds_spawns. simpl. rewrite P2, P3, !app_nil_r. now split.
Qed.

Lemma run_stage_spawns_once : forall w t exe s,
  exists runs,
    adds_spawns s (the_state (run_stage w t exe s)) [] runs
    /\ length runs <= 1.
Proof.
  intros w t exe s.
  assert (G : forall e cwd,
    exists runs,
      adds_spawns s
        (the_state
           ((cmd <- build_run_command w t e ;;
             match cmd with
             | None | Some [] => @fail w unit
             | Some cmd =>
                 ok <- run_attempt w cmd cwd ;;
                 if ok : bool then @success w unit else @fail w unit
             end) s)) [] runs
      /\ length runs <= 1).
  { intros e cwd. unfold bind at 1.
    pose proof (build_run_command_quiet w t e s) as Q. unfold same_trace in Q.
    destruct (build_run_command w t e s) as [[[|c cs]|] s1|x s1|x s1];
      simpl in Q.
    - exists []. split; [|simpl; lia].
      destruct (fail_adds_nothing w s1) as [A B]. unfold adds_spawns in *.
      rewrite A, B, Q. now split.
    - destruct (run_attempt_returns w (c :: cs) cwd s1)
        as (ok & s2 & Hrun & _ & P1 & P2 & _).
      exists [(c :: cs, option_map Path.str cwd)]. split; [|simpl; lia].
      unfold bind. rewrite Hrun.
      assert (F : adds_spawns s2
                    (the_state
                       ((if ok then @success w unit else @fail w unit) s2))
                    [] []).
      { destruct ok; [apply success_adds_nothing | apply fail_adds_nothing]. }
      destruct F as [A B]. unfold adds_spawns in *.
      rewrite A, B, P1, P2, Q. simpl. rewrite !app_nil_r. now split.
    - exists []. split; [|simpl; lia].
      destruct (fail_adds_nothing w s1) as [A B]. unfold adds_spawns in *.
      rewrite A, B, Q. now split.
    - exists []. split; [|simpl; lia]. now apply adds_spawns_same.
    - exists []. split; [|simpl; lia]. now apply adds_spawns_same. }
  unfold run_stage.
  assert (L : exists runs,
            adds_spawns s (the_state (@success w unit s)) [] runs
            /\ length runs <= 1).
  { exists []. split; [apply success_adds_nothing | simpl; lia]. }
  destruct (project_type t); try exact L; destruct (kind t); apply G.
Qed.

Lemma pipeline_spawns_once : forall w t s,
  exists probes runs,
    adds_spawns s (the_state (pipeline w t s)) probes runs
    /\ length probes <= 1 /\ length runs <= 1.
Proof.
  intros w t s.
  assert (F : forall fact, exists probes runs,
            adds_spawns s (the_state ((log_add fact ;;; @fail w unit) s))
              probes runs
            /\ length probes <= 1 /\ length runs <= 1).
  { intros fact. exists [], []. split; [|simpl; lia].
    unfold bind, log_add.
    destruct (fail_adds_nothing w
                {| log := Log.add (log s) fact; trace := trace s |}) as [A B].
    unfold adds_spawns in *. simpl in *. now split. }
  assert (Go : forall exe rt found,
    exists probes runs,
      adds_spawns s
        (the_state
           ((get_runtime_version w exe rt ;;;
             detect_project_facts w t ;;;
             python_deps_probe_from_requirements w t MAX_PKGS ;;;
             run_stage w t found) s))
        probes runs
      /\ length probes <= 1 /\ length runs <= 1).
  { intros exe rt found.
    destruct (get_runtime_version_returns w exe rt s)
      as (s1 & Hv & Ht1).
    rewrite (bind_ret_eq _ _ _ _ _ _ _ Hv).
    assert (V : adds_spawns s s1 [[exe; "--version"]] []).
    { unfold adds_spawns. rewrite Ht1, popens_app, subprocesses_app. simpl.
      now rewrite !app_nil_r. }
    unfold bind at 1.
    pose proof (detect_project_facts_quiet w t s1) as Q1.
    unfold same_trace in Q1.
    destruct (detect_project_facts w t s1) as [[] s2|x s2|x s2]; simpl in Q1.
    2,3: exists [[exe; "--version"]], []; (split; [|simpl; lia]); simpl;
         destruct V as [A B]; unfold adds_spawns; rewrite Q1; now split.
    unfold bind at 1.
    pose proof (python_deps_probe_quiet w t MAX_PKGS s2) as Q2.
    unfold same_trace in Q2.
    destruct (python_deps_probe_from_requirements w t MAX_PKGS s2)
      as [[] s3|x s3|x s3]; simpl in Q2.
    2,3: exists [[exe; "--version"]], []; (split; [|simpl; lia]); simpl;
         destruct V as [A B]; unfold adds_spawns; rewrite Q2, Q1; now split.
    destruct (run_stage_spawns_once w t found s3) as (runs & [A B] & L).
    exists [[exe; "--version"]], runs. split; [|simpl; lia].
    destruct V as [V1 V2]. unfold adds_spawns.
    rewrite A, B, Q2, Q1, V1, V2. simpl. rewrite !app_nil_r, <- !app_assoc.
    now split. }
  unfold pipeline.
  destruct (runtime_or_unknown t); try apply F;
    (destruct (which_runtime w _) as [[|c r]|];
     [apply F | apply Go | apply F]).
Qed.

(** X15: An invocation makes at most one run attempt, and creates at most two
    subprocesses in all: the version probe and that attempt.  There is no
    input for which the program is run a second time. *)
Theorem main_makes_one_attempt :
  forall (w : World) (argv : list string),
    length (popens (trace (the_state (main w argv state0)))) <= 1
    /\ length (subprocesses (trace (the_state (main w argv state0)))) <= 2.
Proof.
  intros w argv.
  assert (E : exists probes runs,
            adds_spawns state0 (the_state (main w argv state0)) probes runs
            /\ length probes <= 1 /\ length runs <= 1).
  { unfold main.
    assert (F : exists probes runs,
              adds_spawns state0
                (the_state ((log_add "arg: missing_or_extra" ;;; @fail w unit)
                              state0)) probes runs
              /\ length probes <= 1 /\ length runs <= 1).
    { exists [], []. split; [|simpl; lia]. unfold bind, log_add.
      destruct (fail_adds_nothing w
                  {| log := Log.add (log state0) "arg: missing_or_extra";
                     trace := trace state0 |}) as [A B].
      unfold adds_spawns in *. simpl in *. now split. }
    destruct argv as [|a [|b [|c r]]]; try exact F.
    destruct (platform_fact_returns w state0) as (s1 & Hp & Ht1).
    rewrite (bind_ret_eq _ _ _ _ _ _ _ Hp). unfold bind.
    pose proof (parse_target_quiet w b s1) as Q. unfold same_trace in Q.
    destruct (parse_target w b s1) as [t s2|x s2|x s2]; simpl in Q.
    - destruct (pipeline_spawns_once w t s2) as (p & r & [A B] & L).
      exists p, r. split; [|exact L]. unfold adds_spawns.
      rewrite A, B, Q, Ht1. now split.
    - exists [], []. split; [|simpl; lia]. apply adds_spawns_same. simpl.
      now rewrite Q, Ht1.
    - exists [], []. split; [|simpl; lia]. apply adds_spawns_same. simpl.
      now rewrite Q, Ht1. }
  destruct E as (probes & runs & [A B] & Lp & Lr).
  rewrite A, B. simpl. rewrite length_app, length_map. lia.
Qed.

(* ================================================================== *)
(** ** Further properties: the package names of the requirements file *)
(* ================================================================== *)

Lemma parse_requirements_bound : forall n lines pkgs result,
  length pkgs < Nat.max n 1 ->
  parse_requirements n lines pkgs = Ok result ->
  length result <= Nat.max n 1.
Proof.
  intros n lines; induction lines as [|ln rest IH]; intros pkgs result Hlt H;
    simpl in H.
  - injection H as <-. lia.
  - destruct (PyStr.is_empty (PyStr.strip ln)
              || PyStr.startswith "#" (PyStr.strip ln)); [now apply IH in H|].
    destruct (PyStr.startswith "-" (PyStr.strip ln)
              || PyStr.startswith "--" (PyStr.strip ln)
              || PyStr.contains "://" (PyStr.strip ln)
              || PyStr.startswith "git+" (PyStr.strip ln));
      [now apply IH in H|].
    destruct (PyStr.first_word _) as [word|]; [|discriminate H].
    set (name := cut_operators _) in H.
    set (pkgs' := if PyStr.is_empty name then pkgs else pkgs ++ [name]) in H.
    assert (Hle : length pkgs' <= Nat.max n 1).
    { unfold pkgs'. destruct (PyStr.is_empty name); [lia|].
      rewrite length_app. simpl. lia. }
    destruct (Nat.leb_spec n (length pkgs')).
    + injection H as <-. exact Hle.
    + apply IH in H; [exact H | lia].
Qed.

(** X16: However long the requirements file is, the loop keeps at most
    [max_pkgs] package names, and at most one when [max_pkgs] is 0: with
    the 12 that [main] passes, at most 12. *)
Theorem parse_requirements_keeps_at_most_max :
  forall (n : nat) (lines result : list string),
    parse_requirements n lines [] = Ok result ->
    length result <= Nat.max n 1
    /\ (n = MAX_PKGS -> length result <= 12).
Proof.
  intros n lines result H.
  assert (B : length result <= Nat.max n 1).
  { apply (parse_requirements_bound n lines [] result); [simpl; lia | exact H]. }
  split; [exact B|]. intros ->. unfold MAX_PKGS in B. lia.
Qed.

Lemma parse_requirements_keeps_at_most_max_witness :
  length ["flask"; "requests"] <= Nat.max 2 1.
Proof.
  apply (parse_requirements_keeps_at_most_max 2
           ["flask>=2"; "# tools"; "requests"; "numpy"] ["flask"; "requests"]).
  vm_compute. reflexivity.
Defined.

(** *** Occurrences survive in no part of a string that lacks them *)

Lemma prefix_app : forall x a post,
  String.prefix x a = true -> String.prefix x (a +++ post) = true.
Proof.
  induction x as [|c x IH]; intros a post H; [now destruct (a +++ post)|].
  destruct a as [|d a]; simpl in *; [discriminate|].
  destruct (ascii_dec c d); [now apply IH | discriminate].
Qed.

Lemma contains_app_r : forall x a post,
  PyStr.contains x a = true -> PyStr.contains x (a +++ post) = true.
Proof.
  intros x a post; induction a as [|c a IH]; intros H.
  - cbn [PyStr.contains] in H. rewrite orb_false_r in H.
    destruct x; [|discriminate H]. now destruct post.
  - cbn [PyStr.contains] in H. cbn [String.append PyStr.contains].
    apply orb_true_iff in H as [H|H]; apply orb_true_iff.
    + left. now apply (prefix_app x (String c a) post).
    + right. now apply IH.
Qed.

Lemma contains_app_l : forall x pre b,
  PyStr.contains x b = true -> PyStr.contains x (pre +++ b) = true.
Proof.
  intros x pre b H; induction pre as [|c pre IH]; [exact H|].
  cbn [String.append PyStr.contains]. rewrite IH. apply orb_true_r.
Qed.

Lemma contains_within : forall x a b,
  within a b -> PyStr.contains x b = false -> PyStr.contains x a = false.
Proof.
  intros x a b (pre & post & ->) H.
  destruct (PyStr.contains x a) eqn:E; [|reflexivity].
  now rewrite (contains_app_l x pre _ (contains_app_r x a post E)) in H.
Qed.

Lemma any_space_app : forall a b,
  PyStr.any_space (a +++ b) = PyStr.any_space a || PyStr.any_space b.
Proof.
  induction a as [|c a IH]; intros b; simpl; [reflexivity|].
  now rewrite IH, orb_assoc.
Qed.

Lemma any_space_within : forall a b,
  within a b -> PyStr.any_space b = false -> PyStr.any_space a = false.
Proof.
  intros a b (pre & post & ->) H. rewrite !any_space_app in H.
  apply orb_false_iff in H as [_ H]. now apply orb_false_iff in H as [H _].
Qed.

Lemma within_refl : forall a, within a a.
Proof. intros a. exists EmptyString, EmptyString. simpl.
  induction a as [|c a IH]; simpl; [reflexivity | now rewrite <- IH]. Qed.

Lemma within_trans : forall a b c, within a b -> within b c -> within a c.
Proof.
  intros a b c (p1 & q1 & ->) (p2 & q2 & ->).
  exists (p2 +++ p1), (q1 +++ q2). now rewrite !str_app_assoc.
Qed.

Lemma within_prefix : forall a rest, within a (a +++ rest).
Proof. intros a rest. now exists EmptyString, rest. Qed.

Lemma str_app_nil_r : forall a, a +++ EmptyString = a.
Proof. induction a as [|c a IH]; simpl; [|rewrite IH]; reflexivity. Qed.

Lemma within_suffix : forall pre a, within a (pre +++ a).
Proof. intros pre a. exists pre, EmptyString. now rewrite str_app_nil_r. Qed.

Lemma lstrip_suffix : forall s, exists pre, s = pre +++ PyStr.lstrip s.
Proof.
  induction s as [|c r [pre IH]]; simpl; [now exists EmptyString|].
  destruct (PyStr.isspace c).
  - exists (String c pre). simpl. now rewrite <- IH.
  - now exists EmptyString.
Qed.

Lemma rstrip_prefix : forall s, exists rest, s = PyStr.rstrip s +++ rest.
Proof.
  induction s as [|c r [rest IH]]; simpl; [now exists EmptyString|].
  destruct (PyStr.isspace c && PyStr.is_empty (PyStr.rstrip r)).
  - now exists (String c r).
  - exists rest. simpl. now rewrite <- IH.
Qed.

Lemma strip_within : forall s, within (PyStr.strip s) s.
Proof.
  intros s. unfold PyStr.strip.
  destruct (lstrip_suffix s) as [pre Hp].
  destruct (rstrip_prefix (PyStr.lstrip s)) as [rest Hr].
  exists pre, rest. now rewrite <- Hr.
Qed.

Lemma before_prefix : forall sep s, exists rest, s = PyStr.before sep s +++ rest.
Proof.
  intros sep s; induction s as [|c r [rest IH]]; [now exists EmptyString|].
  cbn [PyStr.before]. destruct (String.prefix sep (String c r)).
  - now exists (String c r).
  - exists rest. simpl. now rewrite <- IH.
Qed.

Lemma before_within : forall sep s, within (PyStr.before sep s) s.
Proof.
  intros sep s. destruct (before_prefix sep s) as [rest H].
  rewrite H at 2. apply within_prefix.
Qed.

Lemma until_space_prefix : forall s,
  exists rest, s = PyStr.until_space s +++ rest.
Proof.
  induction s as [|c r [rest IH]]; simpl; [now exists EmptyString|].
  destruct (PyStr.isspace c).
  - now exists (String c r).
  - exists rest. simpl. now rewrite <- IH.
Qed.

Lemma until_space_no_space : forall s,
  PyStr.any_space (PyStr.until_space s) = false.
Proof.
  induction s as [|c r IH]; simpl; [reflexivity|].
  destruct (PyStr.isspace c) eqn:E; simpl; [reflexivity | now rewrite E].
Qed.

Lemma before_lacks_sep : forall sep s,
  sep <> EmptyString -> PyStr.contains sep (PyStr.before sep s) = false.
Proof.
  intros sep s Hsep; induction s as [|c r IH].
  - destruct sep; [congruence | reflexivity].
  - cbn [PyStr.before].
    destruct (String.prefix sep (String c r)) eqn:P.
    + destruct sep; [congruence | reflexivity].
    + cbn [PyStr.contains]. rewrite IH, orb_false_r.
      destruct (String.prefix sep (String c (PyStr.before sep r))) eqn:Q;
        [|reflexivity].
      destruct (before_prefix sep r) as [rest Hr].
      pose proof (prefix_app sep _ rest Q) as Q'.
      cbn [String.append] in Q'. rewrite <- Hr in Q'. congruence.
Qed.

Lemma first_word_inv : forall x word,
  PyStr.first_word x = Some word ->
  word = PyStr.until_space (PyStr.lstrip x).
Proof.
  intros x word H. unfold PyStr.first_word in H.
  destruct (PyStr.lstrip x); [discriminate | now injection H as <-].
Qed.

Lemma first_word_within : forall x word,
  PyStr.first_word x = Some word ->
  within word x /\ PyStr.any_space word = false.
Proof.
  intros x word H. rewrite (first_word_inv x word H). split.
  - destruct (lstrip_suffix x) as [pre Hp].
    destruct (until_space_prefix (PyStr.lstrip x)) as [rest Hr].
    exists pre, rest. now rewrite <- Hr.
  - apply until_space_no_space.
Qed.

Lemma cut_step_spec : forall nm op,
  op <> EmptyString ->
  within (cut_step nm op) nm /\ PyStr.contains op (cut_step nm op) = false.
Proof.
  intros nm op Hop. unfold cut_step.
  destruct (PyStr.contains op nm) eqn:E.
  - split.
    + eapply within_trans; [apply strip_within | apply before_within].
    + eapply contains_within; [apply strip_within|].
      now apply before_lacks_sep.
  - split; [apply within_refl | exact E].
Qed.

Lemma cut_all_spec : forall ops nm,
  Forall (fun op => op <> EmptyString) ops ->
  within (fold_left cut_step ops nm) nm
  /\ Forall (fun op => PyStr.contains op (fold_left cut_step ops nm) = false)
       ops.
Proof.
  induction ops as [|op ops IH]; intros nm H; simpl.
  - split; [apply within_refl | constructor].
  - inversion H as [|? ? Hop Hops]; subst.
    destruct (cut_step_spec nm op Hop) as [W C].
    destruct (IH (cut_step nm op) Hops) as [W' C'].
    split; [now apply (within_trans _ _ _ W' W)|].
    constructor; [|exact C'].
    now apply (contains_within op _ _ W').
Qed.

Lemma cut_operators_spec : forall nm,
  within (cut_operators nm) nm
  /\ Forall (fun op => PyStr.contains op (cut_operators nm) = false)
       VERSION_OPERATORS.
Proof.
  intros nm. apply (cut_all_spec VERSION_OPERATORS nm).
  repeat constructor; discriminate.
Qed.

Lemma parse_requirements_clean : forall n lines pkgs result,
  Forall clean_name pkgs ->
  parse_requirements n lines pkgs = Ok result ->
  Forall clean_name result.
Proof.
  intros n lines; induction lines as [|ln rest IH]; intros pkgs result Hc H;
    simpl in H.
  - now injection H as <-.
  - destruct (PyStr.is_empty (PyStr.strip ln)
              || PyStr.startswith "#" (PyStr.strip ln)); [now apply IH in H|].
    destruct (PyStr.startswith "-" (PyStr.strip ln)
              || PyStr.startswith "--" (PyStr.strip ln)
              || PyStr.contains "://" (PyStr.strip ln)
              || PyStr.startswith "git+" (PyStr.strip ln));
      [now apply IH in H|].
    destruct (PyStr.first_word (PyStr.strip (PyStr.before ";" (PyStr.strip ln))))
      as [word|] eqn:Ew; [|discriminate H].
    set (n1 := PyStr.strip word) in H.
    set (n2 := if PyStr.contains "[" n1 then PyStr.before "[" n1 else n1) in H.
    set (name := cut_operators n2) in H.
    assert (Hname : PyStr.is_empty name = false -> clean_name name).
    { intros Hne.
      destruct (first_word_within _ _ Ew) as [Ww Sw].
      assert (W1 : within n1 word) by apply strip_within.
      assert (W2 : within n2 n1).
      { unfold n2. destruct (PyStr.contains "[" n1);
          [apply before_within | apply within_refl]. }
      assert (B2 : PyStr.contains "[" n2 = false).
      { unfold n2. destruct (PyStr.contains "[" n1) eqn:E; [|exact E].
        apply before_lacks_sep. discriminate. }
      destruct (cut_operators_spec n2) as [W3 Ops]. fold name in W3, Ops.
      assert (Wword : within name word).
      { eapply within_trans; [exact W3|].
        eapply within_trans; [exact W2 | exact W1]. }
      repeat split.
      - intros E. rewrite E in Hne. discriminate Hne.
      - now apply (any_space_within _ _ Wword).
      - apply (contains_within ";" _ _ Wword).
        apply (contains_within ";" _ _ Ww).
        eapply contains_within; [apply strip_within|].
        apply before_lacks_sep. discriminate.
      - now apply (contains_within "[" _ _ W3).
      - exact Ops. }
    set (pkgs' := if PyStr.is_empty name then pkgs else pkgs ++ [name]) in H.
    assert (Hc' : Forall clean_name pkgs').
    { unfold pkgs'. destruct (PyStr.is_empty name) eqn:E; [exact Hc|].
      apply Forall_app. split; [exact Hc|]. constructor; [auto | constructor]. }
    destruct (n <=? length pkgs').
    + now injection H as <-.
    + now apply IH in H.
Qed.

(** X17: Every package name the loop keeps is clean: it is not empty and holds
    no whitespace, no semicolon, no opening bracket and none of the version
    operators ==, >=, <=, ~=, >, <, !=.  Markers, extras and version pins
    never reach the import check. *)
Theorem parse_requirements_names_are_clean :
  forall (n : nat) (lines result : list string),
    parse_requirements n lines [] = Ok result ->
    Forall clean_name result.
Proof.
  intros n lines result H.
  apply (parse_requirements_clean n lines [] result); [constructor | exact H].
Qed.

Lemma parse_requirements_names_are_clean_witness :
  Forall clean_name ["flask"; "requests"].
Proof.
  apply (parse_requirements_names_are_clean 12
           ["flask[async]>=2 ; python_version > '3'"; "requests==2.31.0"]
           ["flask"; "requests"]).
  vm_compute. reflexivity.
Defined.

(* ================================================================== *)
(** ** Further properties: the import check *)
(* ================================================================== *)

Lemma check_imports_spec : forall w pkgs c0 m0 c m,
  check_imports w pkgs c0 m0 = Ok (c, m) ->
  c = c0 + length pkgs
  /\ m = m0 ++ filter (fun p => negb (module_found w p)) pkgs
  /\ Forall (fun p => exists b,
               find_spec w (PyStr.replace_char "-"%char "_"%char p) = Ok b)
       pkgs.
Proof.
  intros w pkgs; induction pkgs as [|p rest IH]; intros c0 m0 c m H; simpl in H.
  - injection H as <- <-. simpl. rewrite app_nil_r. repeat split; [lia|constructor].
  - assert (Hf : forall b,
              find_spec w (PyStr.replace_char "-"%char "_"%char p) = Ok b ->
              filter (fun q => negb (module_found w q)) (p :: rest)
              = (if b then [] else [p])
                ++ filter (fun q => negb (module_found w q)) rest).
    { intros b E. cbn [filter]. unfold module_found at 1. rewrite E.
      now destruct b. }
    destruct (find_spec w (PyStr.replace_char "-"%char "_"%char p))
      as [[|]|e] eqn:E; [| |discriminate H];
      apply IH in H as (Hc & Hm & Hall); rewrite (Hf _ eq_refl);
      cbn [length app]; (split; [lia|]);
      (split; [|constructor; [eexists; exact E | exact Hall]]).
    + exact Hm.
    + now rewrite <- app_assoc in Hm.
Qed.

(** X18: When the import check completes, every package was checked, and the
    missing ones are exactly those whose module, with hyphens read as
    underscores, was not found, in the order of the file; so the count of
    missing packages never exceeds the count of checked ones. *)
Theorem check_imports_counts :
  forall (w : World) (pkgs : list string) (checked : nat)
         (missing : list string),
    check_imports w pkgs 0 [] = Ok (checked, missing) ->
    checked = length pkgs
    /\ missing = filter (fun p => negb (module_found w p)) pkgs
    /\ length missing <= checked.
Proof.
  intros w pkgs checked missing H.
  destruct (check_imports_spec w pkgs 0 [] checked missing H) as (Hc & Hm & _).
  simpl in Hc, Hm. subst. repeat split. apply filter_length_le.
Qed.

Lemma check_imports_counts_witness :
  2 = length ["type-extensions"; "flask"]
  /\ ["type-extensions"; "flask"]
     = filter (fun p => negb (module_found Worlds.bare p))
         ["type-extensions"; "flask"]
  /\ length ["type-extensions"; "flask"] <= 2.
Proof.
  apply (check_imports_counts Worlds.bare ["type-extensions"; "flask"] 2
           ["type-extensions"; "flask"]).
  vm_compute. reflexivity.
Defined.

(* ================================================================== *)
(** ** Further properties: the order of what an invocation does *)
(* ================================================================== *)

Lemma quiet_no_exit_then : forall a b c h h',
  quiet_no_exit a h b -> quiet_no_exit b h' c -> quiet_no_exit a h' c.
Proof.
  unfold quiet_no_exit. intros a b c h h' [H1 _] [H2 N]. split; [congruence|exact N].
Qed.

Ltac settle lemma :=
  apply lemma;
  first [ intros ? ? ? ?; apply quiet_no_exit_then
        | unfold keeps, quiet_no_exit; intros; split;
          [reflexivity | intros ?; discriminate] ].

Lemma parse_target_settles : forall w raw,
  keeps quiet_no_exit (parse_target w raw).
Proof. intros w raw. settle keeps_parse_target. Qed.

Lemma detect_project_facts_settles : forall w t,
  keeps quiet_no_exit (detect_project_facts w t).
Proof. intros w t. settle keeps_detect_project_facts. Qed.

Lemma python_deps_probe_settles : forall w t n,
  keeps quiet_no_exit (python_deps_probe_from_requirements w t n).
Proof. intros w t n. settle keeps_python_deps_probe. Qed.

Lemma build_run_command_settles : forall w t exe,
  keeps quiet_no_exit (build_run_command w t exe).
Proof. intros w t exe. settle keeps_build_run_command. Qed.

Lemma ends_in_order_same : forall w A (o : outcome A) s,
  trace (the_state o) = trace s -> closing w o = [] -> ends_in_order w s o.
Proof.
  intros w A o s H C. exists []. split; [reflexivity|].
  now rewrite C, H, !app_nil_r.
Qed.

(** A step that returned after spawning only hands over to what follows. *)
Lemma ends_in_order_after : forall w A (o : outcome A) s s1 mid,
  trace s1 = trace s ++ mid -> forallb is_spawn mid = true ->
  ends_in_order w s1 o -> ends_in_order w s o.
Proof.
  intros w A o s s1 mid Ht Hm (mid' & Hm' & E). exists (mid ++ mid'). split.
  - rewrite forallb_app, Hm, Hm'. reflexivity.
  - rewrite E, Ht, <- !app_assoc. reflexivity.
Qed.

Lemma fail_ends_in_order : forall w A s, ends_in_order w s (@fail w A s).
Proof.
  intros w A s. exists []. split; [reflexivity|].
  unfold fail, log_write, bind, emit, sys_exit.
  destruct (log_writable w) eqn:E; simpl; rewrite ?E; simpl;
    now rewrite <- ?app_assoc.
Qed.

Lemma success_ends_in_order : forall w A s, ends_in_order w s (@success w A s).
Proof.
  intros w A s. exists []. split; [reflexivity|].
  unfold success, log_write, bind, emit, sys_exit.
  destruct (log_writable w) eqn:E; simpl; rewrite ?E; simpl;
    now rewrite <- ?app_assoc.
Qed.

Lemma run_attempt_spawns_only : forall w cmd cwd s,
  exists ok s' mid,
    run_attempt w cmd cwd s = Ret ok s'
    /\ trace s' = trace s ++ mid /\ forallb is_spawn mid = true.
Proof.
  intros w cmd cwd s. unfold run_attempt, terminate.
  destruct (subprocess_popen w cmd (option_map Path.str cwd))
    as [| |[code| |] [|]];
    unfold bind, emit, log_add, try_except, raise, ret; simpl;
    rewrite <- ?app_assoc; simpl;
    eexists; eexists; eexists; (split; [reflexivity|]); simpl;
    (split; [reflexivity|]); reflexivity.
Qed.

(** A bind whose first step settles: the rest decides. *)
Lemma ends_in_order_bind_settled : forall w A B (m : M A) (k : A -> M B) s,
  keeps quiet_no_exit m ->
  (forall a s1, trace s1 = trace s -> ends_in_order w s1 (k a s1)) ->
  ends_in_order w s (bind m k s).
Proof.
  intros w A B m k s Hm Hk. unfold bind. specialize (Hm s).
  destruct (m s) as [a s1|c s1|e s1]; destruct Hm as [Ht N]; simpl in *.
  - apply (ends_in_order_after w B _ s s1 []); [now rewrite app_nil_r|reflexivity|].
    now apply Hk.
  - now elim (N c).
  - now apply ends_in_order_same.
Qed.

Lemma run_stage_ends_in_order : forall w t exe s,
  ends_in_order w s (run_stage w t exe s).
Proof.
  intros w t exe s.
  assert (G : forall e cwd,
    ends_in_order w s
      ((cmd <- build_run_command w t e ;;
        match cmd with
        | None | Some [] => @fail w unit
        | Some cmd =>
            ok <- run_attempt w cmd cwd ;;
            if ok : bool then @success w unit else @fail w unit
        end) s)).
  { intros e cwd. apply ends_in_order_bind_settled;
      [apply build_run_command_settles|].
    intros [[|c cs]|] s1 _; try apply fail_ends_in_order.
    destruct (run_attempt_spawns_only w (c :: cs) cwd s1)
      as (ok & s2 & mid & Hrun & Ht & Hm).
    unfold bind. rewrite Hrun.
    apply (ends_in_order_after w unit _ s1 s2 mid Ht Hm).
    destruct ok; [apply success_ends_in_order | apply fail_ends_in_order]. }
  unfold run_stage.
  destruct (project_type t); try apply success_ends_in_order;
    destruct (kind t); apply G.
Qed.

Lemma pipeline_ends_in_order : forall w t s,
  ends_in_order w s (pipeline w t s).
Proof.
  intros w t s.
  assert (F : forall fact,
            ends_in_order w s ((log_add fact ;;; @fail w unit) s)).
  { intros fact. unfold bind, log_add.
    destruct (fail_ends_in_order w unit
                {| log := Log.add (log s) fact; trace := trace s |})
      as (mid & Hm & E).
    exists mid. now split. }
  assert (Go : forall exe rt found,
    ends_in_order w s
      ((get_runtime_version w exe rt ;;;
        detect_project_facts w t ;;;
        python_deps_probe_from_requirements w t MAX_PKGS ;;;
        run_stage w t found) s)).
  { intros exe rt found.
    destruct (get_runtime_version_returns w exe rt s) as (s1 & Hv & Ht1).
    rewrite (bind_ret_eq _ _ _ _ _ _ _ Hv).
    apply (ends_in_order_after w unit _ s s1 _ Ht1 eq_refl).
    apply ends_in_order_bind_settled; [apply detect_project_facts_settles|].
    intros _ s2 _.
    apply ends_in_order_bind_settled; [apply python_deps_probe_settles|].
    intros _ s3 _. apply run_stage_ends_in_order. }
  unfold pipeline.
  destruct (runtime_or_unknown t); try apply F;
    (destruct (which_runtime w _) as [[|c r]|];
     [apply F | apply Go | apply F]).
Qed.

Lemma main_ends_in_order : forall w argv,
  ends_in_order w state0 (main w argv state0).
Proof.
  intros w argv. unfold main.
  assert (F : ends_in_order w state0
                ((log_add "arg: missing_or_extra" ;;; @fail w unit) state0)).
  { unfold bind, log_add.
    destruct (fail_ends_in_order w unit
                {| log := Log.add (log state0) "arg: missing_or_extra";
                   trace := trace state0 |}) as (mid & Hm & E).
    exists mid. now split. }
  destruct argv as [|a [|b [|c r]]]; try exact F.
  destruct (platform_fact_returns w state0) as (s1 & Hp & Ht1).
  rewrite (bind_ret_eq _ _ _ _ _ _ _ Hp).
  apply (ends_in_order_after w unit _ state0 s1 []);
    [now rewrite Ht1, app_nil_r | reflexivity|].
  apply ends_in_order_bind_settled; [apply parse_target_settles|].
  intros t s2 _. apply pipeline_ends_in_order.
Qed.

(** X20: Whatever the input, an invocation first only spawns (the version probe
    and the run attempt, with its termination request), and then closes:
    when it exits, the log file is written once, with the final log, a log
    of at most 10 entries without line feeds, immediately before the one
    word is printed, SUCCESS for status 0 and FAIL otherwise; when an
    exception escapes, no log file is written and nothing is printed. *)
Theorem main_writes_log_then_prints :
  forall (w : World) (argv : list string),
    let o := main w argv state0 in
    (exists spawns,
       forallb is_spawn spawns = true
       /\ trace (the_state o) = spawns ++ closing w o)
    /\ length (log (the_state o)) <= 10
    /\ Forall entry_ok (log (the_state o)).
Proof.
  intros w argv o. split.
  - destruct (main_ends_in_order w argv) as (mid & Hm & E).
    exists mid. split; [exact Hm | exact E].
  - destruct (main_log_grows w argv state0) as [facts Hf].
    fold o in Hf. rewrite Hf.
    apply add_all_invariant; [simpl; unfold LOG_MAX_LINES; lia | constructor].
Qed.

(* ================================================================== *)
(** ** Further properties: the dependency probe is advisory *)
(* ================================================================== *)

(** At the application of [Worlds.python_app] whose requirements file names
    a package that is not installed: the probe returns with two facts, and
    the run stage goes on as it would have without them. *)
Lemma returned_probe_leaves_verdict_witness :
  python_deps_probe_from_requirements (Worlds.python_app ["requests"])
    python_app_target MAX_PKGS state0
  = Ret tt {| log := ["deps_probe: checked=1 missing=1";
                      "deps_missing: requests"];
              trace := [] |}
  /\ alike
       (run_stage (Worlds.python_app ["requests"]) python_app_target
          (Some "/usr/bin/python3")
          {| log := ["deps_probe: checked=1 missing=1";
                     "deps_missing: requests"];
             trace := [] |})
       (run_stage (Worlds.python_app ["requests"]) python_app_target
          (Some "/usr/bin/python3") state0).
Proof.
  split; [vm_compute; reflexivity|].
  apply (returned_probe_leaves_verdict (Worlds.python_app ["requests"])
           python_app_target MAX_PKGS (Some "/usr/bin/python3") state0).
  vm_compute; reflexivity.
Defined.
